(** * distortionizer: the value types of [angles_to_config/types.h]

    A shallow embedding of the geometry header of the angles-to-config tool
    (rectangular bounds, longitude/latitude pairs, run configuration, raw
    samples, 3D points, mappings, screen and mesh descriptions), followed by
    the properties its specification states about them, and the calibration
    widget of [calibration/opengl_widget.cpp].

    Numbers.  Every numeric field of the header is a C++ [double].  It is read
    here as a real number: [+], [-], [*] are the exact operations, [std::sqrt]
    is [sqrt], and [/] is a partial operation that has no result on a zero
    divisor (C++ [expr.mul]: the behaviour of [/] is undefined when the second
    operand is zero).  Rounding, overflow, signed zeros and NaN are outside
    this reading. *)

From Stdlib Require Import Reals Lra List Bool ZArith Lia.
From Stdlib Require String Ascii.
Import ListNotations.

Local Open Scope R_scope.

(* ================================================================== *)
(** * Numeric model *)

Definition double : Type := R.

(** The error monad of partial arithmetic: [None] is "no defined result". *)
Definition bind {A B : Type} (m : option A) (k : A -> option B) : option B :=
  match m with
  | Some a => k a
  | None => None
  end.

Notation "x <- m ;; k" := (bind m (fun x => k))
  (at level 61, m at next level, right associativity).

(** [a / b] on doubles. *)
Definition fdiv (a b : double) : option double :=
  if Req_dec_T b 0 then None else Some (a / b).

(** [std::atan2(y, x)] from <cmath>: the angle in (-PI, PI] of the point
    [(x, y)], obtained from [atan (y / x)] and the signs of both arguments. *)
Definition atan2 (y x : double) : double :=
  if Rlt_dec 0 x then atan (y / x)
  else if Rlt_dec x 0 then
    if Rle_dec 0 y then atan (y / x) + PI else atan (y / x) - PI
  else
    if Rlt_dec 0 y then PI / 2
    else if Rlt_dec y 0 then - (PI / 2)
    else 0.

(** [#define MY_PI (4.0 * std::atan(1.0))] *)
Definition MY_PI : double := 4 * atan 1.

(** Unary minus of the element type of a template. *)
Class Negate (T : Type) := negate : T -> T.

#[global] Instance Negate_double : Negate double := Ropp.

(* ================================================================== *)
(** * RectBounds<T> *)

Module RectBounds.

Record t (T : Type) : Type := mk
  { left : T;
    right : T;
    top : T;
    bottom : T }.

Arguments mk {T} _ _ _ _.
Arguments left {T} _.
Arguments right {T} _.
Arguments top {T} _.
Arguments bottom {T} _.

(** [return RectBounds<T>{-right, -left, top, bottom};] *)
Definition reflectedHorizontally {T : Type} `{Negate T} (b : t T) : t T :=
  mk (negate (right b)) (negate (left b)) (top b) (bottom b).

End RectBounds.

(** [using RectBoundsd = RectBounds<double>;] *)
Definition RectBoundsd : Type := RectBounds.t double.

(* ================================================================== *)
(** * Point2d: std::array<double, 2> *)

Module Array2.

(** The two valid subscripts of a [std::array<_, 2>]. *)
Inductive index : Type := i0 | i1.

Record t (E : Type) : Type := mk { elt0 : E; elt1 : E }.

Arguments mk {E} _ _.
Arguments elt0 {E} _.
Arguments elt1 {E} _.

(** [a[i]] read. *)
Definition get {E : Type} (a : t E) (i : index) : E :=
  match i with
  | i0 => elt0 a
  | i1 => elt1 a
  end.

(** [a[i] = v]. *)
Definition set {E : Type} (a : t E) (i : index) (v : E) : t E :=
  match i with
  | i0 => mk v (elt1 a)
  | i1 => mk (elt0 a) v
  end.

End Array2.

Definition Point2d : Type := Array2.t double.

(* ================================================================== *)
(** * LongLat *)

Module LongLat.

Record t : Type := mk { longLat : Point2d }.

(** [double longitude() const { return longLat[0]; }] *)
Definition longitude (l : t) : double := Array2.get (longLat l) Array2.i0.

(** [double latitude() const { return longLat[1]; }] *)
Definition latitude (l : t) : double := Array2.get (longLat l) Array2.i1.

(** A write through the reference returned by
    [double & longitude() { return longLat[0]; }]. *)
Definition set_longitude (l : t) (v : double) : t :=
  mk (Array2.set (longLat l) Array2.i0 v).

(** A write through the reference returned by
    [double & latitude() { return longLat[1]; }]. *)
Definition set_latitude (l : t) (v : double) : t :=
  mk (Array2.set (longLat l) Array2.i1 v).

(** [data()]: the underlying array, element 0 first. *)
Definition data (l : t) : list double :=
  [Array2.elt0 (longLat l); Array2.elt1 (longLat l)].

End LongLat.

(* ================================================================== *)
(** * Config *)

Module Config.

Record t : Type := mk
  { useRightEye : bool;
    computeScreenBounds : bool;
    suppliedScreenBounds : RectBoundsd;
    useFieldAngles : bool;
    toMeters : double;
    depth : double;
    verifyAngles : bool;
    xx : double;
    xy : double;
    yx : double;
    yy : double;
    maxAngleDiffDegrees : double;
    verbose : bool }.

(** Default initialisation ([Config c;]) of the storage [mem]: a member with
    a default member initialiser receives it, a member without one keeps
    whatever the storage held (its value is indeterminate). *)
Definition default_init (mem : t) : t :=
  {| useRightEye := false;
     computeScreenBounds := true;
     suppliedScreenBounds := suppliedScreenBounds mem;
     useFieldAngles := true;
     toMeters := 1;
     depth := 2;
     verifyAngles := false;
     xx := xx mem;
     xy := xy mem;
     yx := yx mem;
     yy := yy mem;
     maxAngleDiffDegrees := maxAngleDiffDegrees mem;
     verbose := false |}.

End Config.

(* ================================================================== *)
(** * XYLatLong *)

Module XYLatLong.

Record t : Type := mk
  { x : double;
    y : double;
    latitude : double;
    longitude : double }.

(** The member assignments of the constructor bodies. *)
Definition set_x (v : double) (s : t) : t :=
  mk v (y s) (latitude s) (longitude s).
Definition set_y (v : double) (s : t) : t :=
  mk (x s) v (latitude s) (longitude s).
Definition set_latitude (v : double) (s : t) : t :=
  mk (x s) (y s) v (longitude s).
Definition set_longitude (v : double) (s : t) : t :=
  mk (x s) (y s) (latitude s) v.

(** The default member initialisers: [double x = 0; double y = 0;
    double latitude = 0; double longitude = 0;]. *)
Definition member_init : t := mk 0 0 0 0.

(** [XYLatLong(double px, double py, double plat, double plong)]:
    [x = px; y = py; latitude = plat; longitude = plong;]. *)
Definition make (px py plat plong : double) : t :=
  let s := member_init in
  let s := set_x px s in
  let s := set_y py s in
  let s := set_latitude plat s in
  set_longitude plong s.

(** [XYLatLong() { x = y = latitude = longitude = 0; }]: the chained
    assignment runs right to left, each step passing on the stored value. *)
Definition make_default : t :=
  let s := member_init in
  let s := set_longitude 0 s in
  let s := set_latitude (longitude s) s in
  let s := set_y (latitude s) s in
  set_x (y s) s.

End XYLatLong.

(* ================================================================== *)
(** * XYZ *)

Module XYZ.

Record t : Type := mk
  { x : double;
    y : double;
    z : double }.

Definition set_x (v : double) (p : t) : t := mk v (y p) (z p).
Definition set_y (v : double) (p : t) : t := mk (x p) v (z p).
Definition set_z (v : double) (p : t) : t := mk (x p) (y p) v.

(** [XYZ(double px, double py, double pz) { x = px; y = py; z = pz; }]
    run on storage [mem] (the members have no initialiser). *)
Definition make_in (mem : t) (px py pz : double) : t :=
  let p := set_x px mem in
  let p := set_y py p in
  set_z pz p.

(** [XYZ() { x = y = z = 0; }] run on storage [mem]. *)
Definition make_default_in (mem : t) : t :=
  let p := set_z 0 mem in
  let p := set_y (z p) p in
  set_x (y p) p.

(** The constructors do not depend on the storage; fix one. *)
Definition make (px py pz : double) : t := make_in (mk 0 0 0) px py pz.
Definition make_default : t := make_default_in (mk 0 0 0).

(** [double rotationAboutY() const { return std::atan2(-x, -z); }] *)
Definition rotationAboutY (p : t) : double := atan2 (- x p) (- z p).

(** [XYZ projectOntoPlane(double A, double B, double C, double D) const]:
<<
      XYZ ret;
      double s = -D / (A * x + B * y + C * z);
      ret.x = s * x;
      ret.y = s * y;
      ret.z = s * z;
      return ret;
>> *)
Definition projectOntoPlane (p : t) (A B C D : double) : option t :=
  let ret := make_default in
  s <- fdiv (- D) (A * x p + B * y p + C * z p) ;;
  let ret := set_x (s * x p) ret in
  let ret := set_y (s * y p) ret in
  let ret := set_z (s * z p) ret in
  Some ret.

(** [double distanceFrom(const XYZ& p) const]. *)
Definition distanceFrom (self p : t) : double :=
  sqrt ((x self - x p) * (x self - x p)
        + (y self - y p) * (y self - y p)
        + (z self - z p) * (z self - z p)).

End XYZ.

(** [using XYZList = std::vector<XYZ>;] *)
Definition XYZList : Type := list XYZ.t.

(* ================================================================== *)
(** * Mapping *)

Module Mapping.

Record t : Type := mk
  { xyLatLong : XYLatLong.t;
    xyz : XYZ.t }.

(** [Mapping(XYLatLong const& ll, XYZ const& x) : xyLatLong(ll), xyz(x) {}] *)
Definition make (ll : XYLatLong.t) (x : XYZ.t) : t := mk ll x.

End Mapping.

(* ================================================================== *)
(** * ScreenDescription and MeshDescription *)

Module ScreenDescription.

Record t : Type := mk
  { hFOVDegrees : double;
    vFOVDegrees : double;
    overlapPercent : double;
    xCOP : double;
    yCOP : double;
    A : double;
    B : double;
    C : double;
    D : double;
    screenLeft : XYZ.t;
    screenRight : XYZ.t;
    maxY : double }.

End ScreenDescription.

(** One mesh entry: a 2-array of [from], [to] unit coordinates. *)
Definition MeshEntry : Type := Array2.t Point2d.

(** [std::vector<std::array<std::array<double, 2>, 2>>] *)
Definition MeshDescription : Type := list MeshEntry.

(* ================================================================== *)
(** * Mesh builder *)

(** The mesh builder itself ([findMesh]) is not part of the header; only the
    types it consumes and produces are.  Its normalisation formulas are taken
    as parameters of the section. *)
Section MeshBuilder.

(** Physical-normalised coordinate of a point of the screen plane, relative
    to [screenLeft], [screenRight] and [maxY] of the screen. *)
Variable normalizeProjected : ScreenDescription.t -> XYZ.t -> Point2d.

(** Unit-normalised coordinate of a raw screen position within bounds. *)
Variable normalizeRaw : RectBoundsd -> Point2d -> Point2d.

Variable cfg : Config.t.
Variable screen : ScreenDescription.t.
Variable bounds : RectBoundsd.

(** Modelled from the spec: the bounds used for an eye, "left eye uses the
    bounds as given; right eye uses reflectedHorizontally()". *)
Definition eyeBounds : RectBoundsd :=
  if Config.useRightEye cfg
  then RectBounds.reflectedHorizontally bounds
  else bounds.

(** Modelled from the spec: the "to" coordinate of a sample, "the original
    raw screen-space (x, y) from the sample, normalized into the same unit
    convention using the RectBounds". *)
Definition toCoordinate (m : Mapping.t) : Point2d :=
  normalizeRaw eyeBounds
    (Array2.mk (XYLatLong.x (Mapping.xyLatLong m))
               (XYLatLong.y (Mapping.xyLatLong m))).

(** Modelled from the spec: the mesh entry of one mapping (section 4.2):
    project the direction onto the fitted plane with [projectOntoPlane],
    normalise the projected point into the "from" coordinate, pair it with
    the "to" coordinate.  A singular projection yields no entry. *)
Definition meshEntry (m : Mapping.t) : option MeshEntry :=
  q <- XYZ.projectOntoPlane (Mapping.xyz m)
         (ScreenDescription.A screen) (ScreenDescription.B screen)
         (ScreenDescription.C screen) (ScreenDescription.D screen) ;;
  Some (Array2.mk (normalizeProjected screen q) (toCoordinate m)).

(** Modelled from the spec: the body of the missing [findMesh], one entry
    appended per mapping in input order; a singular sample fails the whole
    build (the policy sections 4.2 and 7 recommend). *)
Fixpoint findMesh_loop (ms : list Mapping.t) (mesh : MeshDescription)
  : option MeshDescription :=
  match ms with
  | [] => Some mesh
  | m :: rest =>
      e <- meshEntry m ;;
      findMesh_loop rest (mesh ++ [e])
  end.

(** Modelled from the spec: the missing mesh builder [findMesh]. *)
Definition findMesh (ms : list Mapping.t) : option MeshDescription :=
  findMesh_loop ms [].

End MeshBuilder.

(* ================================================================== *)
(** * Vocabulary of the specification *)



(** The denominator of the projection. *)
Definition planeDenominator (P : XYZ.t) (A B C : double) : double :=
  A * XYZ.x P + B * XYZ.y P + C * XYZ.z P.

(** [Q] is [s] times [P], componentwise. *)
Definition scaled (s : double) (P Q : XYZ.t) : Prop :=
  XYZ.x Q = s * XYZ.x P /\ XYZ.y Q = s * XYZ.y P /\ XYZ.z Q = s * XYZ.z P.

(** [Q] lies on the line through the origin and [P]. *)
Definition collinearWithOrigin (P Q : XYZ.t) : Prop := exists s, scaled s P Q.

(** The Euclidean distance of the specification:
    [sqrt((p.x-q.x)^2 + (p.y-q.y)^2 + (p.z-q.z)^2)]. *)
Definition euclideanDistance (p q : XYZ.t) : double :=
  sqrt ((XYZ.x p - XYZ.x q) ^ 2 + (XYZ.y p - XYZ.y q) ^ 2
        + (XYZ.z p - XYZ.z q) ^ 2).

(** The direction obtained by turning the -Z axis by [t] about Y, positive
    angles heading towards -X, at any distance [r] and height [h]. *)
Definition turnedAboutY (r t h : double) : XYZ.t :=
  XYZ.make (- (r * sin t)) h (- (r * cos t)).

(** A run of the mesh builder: the screen plane [z = -1], two samples. *)
Definition sampleScreen : ScreenDescription.t :=
  ScreenDescription.mk 90 90 100 (1/2) (1/2) 0 0 1 1
    (XYZ.make (- 1) 0 (- 1)) (XYZ.make 1 0 (- 1)) 1.

Definition sampleBounds : RectBoundsd := RectBounds.mk 0 10 10 0.

Definition sampleConfig : Config.t :=
  Config.default_init
    (Config.mk false false sampleBounds false 0 0 false 0 0 0 0 0 false).

Definition sampleMappings : list Mapping.t :=
  [ Mapping.make (XYLatLong.make 3 4 0 0) (XYZ.make 0 0 (- 2));
    Mapping.make (XYLatLong.make 5 6 0 0) (XYZ.make 1 0 (- 1)) ].

Definition sampleNormalizeProjected (s : ScreenDescription.t) (q : XYZ.t)
  : Point2d :=
  Array2.mk (XYZ.x q) (XYZ.y q / ScreenDescription.maxY s).

Definition sampleNormalizeRaw (b : RectBoundsd) (p : Point2d) : Point2d :=
  Array2.mk
    ((Array2.elt0 p - RectBounds.left b) / (RectBounds.right b - RectBounds.left b))
    ((Array2.elt1 p - RectBounds.bottom b) / (RectBounds.top b - RectBounds.bottom b)).

Definition sampleMesh : MeshDescription :=
  [ Array2.mk (Array2.mk 0 0) (Array2.mk (3/10) (4/10));
    Array2.mk (Array2.mk 1 0) (Array2.mk (5/10) (6/10)) ].

(* ================================================================== *)
(** * XYZ::debugPrint *)

Module XYZPrint.

Import Ascii String.

(** The fill of [std::setw]: [n] copies of the fill character, a space. *)
Fixpoint fill (n : nat) : string :=
  match n with
  | O => EmptyString
  | S k => String " "%char (fill k)
  end.

(** An insertion under [std::setw(w)]: the text is right-aligned in a field
    of at least [w] characters (the default adjustment), and is never cut. *)
Definition setw (w : nat) (text : string) : string :=
  append (fill (w - length text)) text.

(** [static const auto PRECISION = 4;] *)
Definition PRECISION : nat := 4.

(** [static const auto WIDTH = PRECISION + 3;] *)
Definition WIDTH : nat := PRECISION + 3.

Section Formatter.

(** [ss << v] for a [double] under [std::setprecision(p)]: the digits are
    produced by the stream library and are a parameter here. *)
Variable formatDouble : nat -> double -> string.

(** The caller's [std::ostream] and the insertion of a [std::string] into
    it.  What an insertion does depends on the state of that stream (a
    pending width, the fill character, a failed state, the buffer behind
    it), which the function neither reads nor sets: both are parameters. *)
Variable ostream : Type.
Variable insertString : ostream -> string -> ostream.

(** The text assembled in the local [std::ostringstream ss], a stream that
    starts empty, in good state and with no width pending:
<<
      ss << std::setprecision(PRECISION);
      ss << "(" << std::setw(WIDTH) << x;
      ss << ", " << std::setw(WIDTH) << y;
      ss << ", " << std::setw(WIDTH) << z << ")";
>> *)
Definition debugText (p : XYZ.t) : string :=
  let ss := EmptyString in
  let ss := append ss "(" in
  let ss := append ss (setw WIDTH (formatDouble PRECISION (XYZ.x p))) in
  let ss := append ss ", " in
  let ss := append ss (setw WIDTH (formatDouble PRECISION (XYZ.y p))) in
  let ss := append ss ", " in
  let ss := append ss (setw WIDTH (formatDouble PRECISION (XYZ.z p))) in
  append ss ")".

(** [void debugPrint(std::ostream& os) const]: after [ss] is filled, the one
    statement that touches the caller's stream is [os << ss.str();]. *)
Definition debugPrint (p : XYZ.t) (os : ostream) : ostream :=
  insertString os (debugText p).

End Formatter.

End XYZPrint.

(* ================================================================== *)
(** * The calibration widget: [calibration/opengl_widget.cpp] *)

(** C++ [int], 32 bits wide: an arithmetic result that is not representable
    is undefined. *)
Module Int.

Local Open Scope Z_scope.

Definition INT_MIN : Z := - 2 ^ 31.
Definition INT_MAX : Z := 2 ^ 31 - 1.

Definition representable (z : Z) : bool :=
  (INT_MIN <=? z) && (z <=? INT_MAX).

Definition checked (z : Z) : option Z :=
  if representable z then Some z else None.

(** [a + b] and [a - b] on ints. *)
Definition add (a b : Z) : option Z := checked (a + b).
Definition sub (a b : Z) : option Z := checked (a - b).

(** [a / b] on ints: the quotient truncated towards zero. *)
Definition div (a b : Z) : option Z :=
  if b =? 0 then None else checked (Z.quot a b).

(** The conversion of an int to a floating type. *)
Definition to_double (z : Z) : double := IZR z.

(** The real number cut towards zero. *)
Definition truncate (d : double) : Z :=
  if Rle_dec 0 d then Int_part d else - Int_part (- d).

(** The implicit conversion of a [double] to [int]: the fractional part is
    discarded; undefined when the result is not representable. *)
Definition of_double (d : double) : option Z := checked (truncate d).

End Int.

(** The values of the Qt enumerators the widget tests. *)
Module Qt.

Definition Key_Left : Z := 0x01000012.
Definition Key_Up : Z := 0x01000013.
Definition Key_Right : Z := 0x01000014.
Definition Key_Down : Z := 0x01000015.

Definition LeftButton : Z := 1.
Definition RightButton : Z := 2.

End Qt.

(** [QPoint]: a point with int coordinates. *)
Module QPoint.

Record t : Type := mk { x : Z; y : Z }.

Definition setX (v : Z) (p : t) : t := mk v (y p).
Definition setY (v : Z) (p : t) : t := mk (x p) v.

End QPoint.

Module OpenGL_Widget.

Local Open Scope Z_scope.

(** The members the functions of the file read and write.  [d_width] and
    [d_height] are declared in [opengl_widget.h]; they are ints, the type of
    the arguments [resizeGL] stores in them. *)
Record t : Type := mk
  { d_cop : QPoint.t;
    d_width : Z;
    d_height : Z }.

Definition set_cop (c : QPoint.t) (w : t) : t := mk c (d_width w) (d_height w).

(** Matrix stacks named by [glMatrixMode]. *)
Inductive MatrixMode : Type := GL_PROJECTION | GL_MODELVIEW.

(** The calls the widget makes into OpenGL, Qt and stdio, with the values of
    their arguments.  An int passed where a float is expected is recorded
    before its conversion. *)
Inductive Call : Type :=
| glClear_COLOR_DEPTH
| glLoadIdentity
| glTranslatef (x y z : double)
| glPointSize (size : double)
| glDisable_TEXTURE_2D
| glColor3f (r g b : double)
| glBegin_LINES
| glVertex2f (x y : Z)
| glEnd
| glViewport (x y width height : Z)
| glMatrixMode (mode : MatrixMode)
| glOrtho (left right bottom top : Z) (zNear zFar : double)
| printf_key (key : Z)
| updateGL.

(** [OpenGL_Widget(QWidget *parent) : ..., d_cop(QPoint(0,0))] on storage
    [mem]: the two sizes receive nothing. *)
Definition construct (mem : t) : t :=
  mk (QPoint.mk 0 0) (d_width mem) (d_height mem).

(** [void OpenGL_Widget::paintGL()] *)
Definition paintGL (w : t) : option (list Call) :=
  half <- Int.div (d_width w) 2 ;;
  rx <- Int.sub (d_width w) (QPoint.x (d_cop w)) ;;
  let cop_r := QPoint.mk rx (QPoint.y (d_cop w)) in
  Some
    [ glClear_COLOR_DEPTH;
      glLoadIdentity;
      glTranslatef 0%R 0%R (- 10)%R;
      glPointSize 5%R;
      glDisable_TEXTURE_2D;
      glColor3f 1%R 1%R 1%R;
      glBegin_LINES;
      glVertex2f 0 (QPoint.y (d_cop w));
      glVertex2f half (QPoint.y (d_cop w));
      glVertex2f (QPoint.x (d_cop w)) 0;
      glVertex2f (QPoint.x (d_cop w)) (d_height w);
      glVertex2f half (QPoint.y cop_r);
      glVertex2f (d_width w) (QPoint.y cop_r);
      glVertex2f (QPoint.x cop_r) 0;
      glVertex2f (QPoint.x cop_r) (d_height w);
      glEnd ].

(** The local [aspect] of [resizeGL]:
<<
      if ((height <= 0) || (width < 0)) { aspect = 1.0; }
      else { aspect = static_cast<float>(width)/height; }
>> *)
Definition aspect (width height : Z) : option double :=
  if (height <=? 0) || (width <? 0)
  then Some 1%R
  else fdiv (Int.to_double width) (Int.to_double height).

(** [void OpenGL_Widget::resizeGL(int width, int height)] *)
Definition resizeGL (width height : Z) (w : t) : option (t * list Call) :=
  let w := mk (d_cop w) width (d_height w) in
  let w := mk (d_cop w) (d_width w) height in
  _ <- aspect width height ;;
  right <- Int.sub (d_width w) 1 ;;
  top <- Int.sub (d_height w) 1 ;;
  qx <- fdiv (Int.to_double (d_width w)) 4%R ;;
  cx <- Int.of_double qx ;;
  let w := set_cop (QPoint.setX cx (d_cop w)) w in
  qy <- fdiv (Int.to_double (d_height w)) 2%R ;;
  cy <- Int.of_double qy ;;
  let w := set_cop (QPoint.setY cy (d_cop w)) w in
  Some (w,
        [ glViewport 0 0 width height;
          glMatrixMode GL_PROJECTION;
          glLoadIdentity;
          glOrtho 0 right 0 top 5%R 15%R;
          glMatrixMode GL_MODELVIEW ]).

(** [void OpenGL_Widget::keyPressEvent(QKeyEvent *event)], [key] being
    [event->key()]. *)
Definition keyPressEvent (key : Z) (w : t) : option (t * list Call) :=
  w' <- (if key =? Qt.Key_Left then
           v <- Int.sub (QPoint.x (d_cop w)) 1 ;;
           Some (set_cop (QPoint.setX v (d_cop w)) w)
         else if key =? Qt.Key_Right then
           v <- Int.add (QPoint.x (d_cop w)) 1 ;;
           Some (set_cop (QPoint.setX v (d_cop w)) w)
         else if key =? Qt.Key_Down then
           v <- Int.sub (QPoint.y (d_cop w)) 1 ;;
           Some (set_cop (QPoint.setY v (d_cop w)) w)
         else if key =? Qt.Key_Up then
           v <- Int.add (QPoint.y (d_cop w)) 1 ;;
           Some (set_cop (QPoint.setY v (d_cop w)) w)
         else Some w) ;;
  Some (w', [printf_key key; updateGL]).

(** [void OpenGL_Widget::mousePressEvent(QMouseEvent *event)], [pos] being
    [event->pos()]. *)
Definition mousePressEvent (pos : QPoint.t) (w : t) : option (t * list Call) :=
  half <- Int.div (d_width w) 2 ;;
  w' <- (if QPoint.x pos <? half then
           let w1 := set_cop pos w in
           v <- Int.sub (d_height w1) (QPoint.y (d_cop w1)) ;;
           Some (set_cop (QPoint.setY v (d_cop w1)) w1)
         else Some w) ;;
  Some (w', [updateGL]).

(** [void OpenGL_Widget::mouseMoveEvent(QMouseEvent *event)], [buttons]
    being [event->buttons()]: both branches are empty. *)
Definition mouseMoveEvent (buttons : Z) (w : t) : option (t * list Call) :=
  if negb (Z.land buttons Qt.LeftButton =? 0) then Some (w, [])
  else if negb (Z.land buttons Qt.RightButton =? 0) then Some (w, [])
  else Some (w, []).

(** The events Qt delivers to the widget. *)
Inductive Event : Type :=
| Resize (width height : Z)
| KeyPress (key : Z)
| MousePress (pos : QPoint.t)
| MouseMove (buttons : Z).

Definition handle (e : Event) (w : t) : option (t * list Call) :=
  match e with
  | Resize width height => resizeGL width height w
  | KeyPress key => keyPressEvent key w
  | MousePress pos => mousePressEvent pos w
  | MouseMove buttons => mouseMoveEvent buttons w
  end.

(** The widget after a sequence of events, with the calls made on the way. *)
Fixpoint run (es : list Event) (w : t) : option (t * list Call) :=
  match es with
  | [] => Some (w, [])
  | e :: rest =>
      r1 <- handle e w ;;
      r2 <- run rest (fst r1) ;;
      Some (fst r2, snd r1 ++ snd r2)
  end.

(** The centre of projection lies left of the middle of the window, where
    [mousePressEvent] accepts a click. *)
Definition copInLeftHalf (w : t) : Prop :=
  QPoint.x (d_cop w) < Z.quot (d_width w) 2.

(** The arguments of the [glVertex2f] calls, in order. *)
Fixpoint vertices (calls : list Call) : list (Z * Z) :=
  match calls with
  | [] => []
  | glVertex2f x y :: rest => (x, y) :: vertices rest
  | _ :: rest => vertices rest
  end.

(** The segments [GL_LINES] draws: consecutive vertices, two by two. *)
Fixpoint segments (vs : list (Z * Z)) : list ((Z * Z) * (Z * Z)) :=
  match vs with
  | a :: b :: rest => (a, b) :: segments rest
  | _ => []
  end.

(** A point mirrored about the vertical middle line of a window of the
    given width. *)
Definition mirrored (width : Z) (v : Z * Z) : Z * Z := (width - fst v, snd v).

End OpenGL_Widget.

(* ================================================================== *)
(** * Properties *)

(** ** Partial arithmetic *)

Lemma fdiv_defined (a b : double) : b <> 0 -> fdiv a b = Some (a / b).
Proof.
  intros Hb. unfold fdiv. destruct (Req_dec_T b 0) as [E | _]; [contradiction | reflexivity].
Qed.

Lemma fdiv_undefined (a : double) : fdiv a 0 = None.
Proof.
  unfold fdiv. destruct (Req_dec_T 0 0) as [_ | N]; [reflexivity | now elim N].
Qed.

Lemma fdiv_None_iff (a b : double) : fdiv a b = None <-> b = 0.
Proof.
  split.
  - unfold fdiv. destruct (Req_dec_T b 0); [trivial | discriminate].
  - intros ->. apply fdiv_undefined.
Qed.

(** X18.  The macro [MY_PI], [4.0 * std::atan(1.0)], is the number PI. *)
Lemma MY_PI_is_PI : MY_PI = PI.
Proof. unfold MY_PI. rewrite atan_1. lra. Qed.

(** ** RectBounds *)

Section RectBoundsGeneric.

Context {T : Type} `{Negate T}.
Hypothesis negate_involutive : forall v : T, negate (negate v) = v.

(** Over any element type whose unary minus undoes itself, mirroring twice
    gives the rectangle back. *)
Lemma reflectedHorizontally_involutive_gen (b : RectBounds.t T) :
  RectBounds.reflectedHorizontally (RectBounds.reflectedHorizontally b) = b.
Proof.
  destruct b as [l r t0 b0]. unfold RectBounds.reflectedHorizontally. simpl.
  now rewrite !negate_involutive.
Qed.

End RectBoundsGeneric.

Lemma negate_double_involutive (v : double) : negate (negate v) = v.
Proof. unfold negate, Negate_double. apply Ropp_involutive. Qed.

(** C4.  For every [RectBoundsd] [b], [b.reflectedHorizontally()] has
    [left = -b.right] and [right = -b.left], keeps [top] and [bottom], and
    applying it twice returns [b]. *)
Theorem reflectedHorizontally_spec (b : RectBoundsd) :
  let r := RectBounds.reflectedHorizontally b in
  RectBounds.left r = - RectBounds.right b
  /\ RectBounds.right r = - RectBounds.left b
  /\ RectBounds.top r = RectBounds.top b
  /\ RectBounds.bottom r = RectBounds.bottom b
  /\ RectBounds.reflectedHorizontally r = b.
Proof.
  cbv zeta. repeat split.
  apply reflectedHorizontally_involutive_gen, negate_double_involutive.
Qed.

(** ** LongLat *)

(** C8.  [longitude()] reads and writes element 0 of the underlying
    [Point2d], [latitude()] reads and writes element 1; a write leaves the
    other element alone. *)
Theorem LongLat_accessors (l : LongLat.t) (v : double) :
  LongLat.longitude l = Array2.elt0 (LongLat.longLat l)
  /\ LongLat.latitude l = Array2.elt1 (LongLat.longLat l)
  /\ LongLat.longLat (LongLat.set_longitude l v)
     = Array2.mk v (Array2.elt1 (LongLat.longLat l))
  /\ LongLat.longLat (LongLat.set_latitude l v)
     = Array2.mk (Array2.elt0 (LongLat.longLat l)) v
  /\ LongLat.longitude (LongLat.set_longitude l v) = v
  /\ LongLat.latitude (LongLat.set_longitude l v) = LongLat.latitude l
  /\ LongLat.latitude (LongLat.set_latitude l v) = v
  /\ LongLat.longitude (LongLat.set_latitude l v) = LongLat.longitude l.
Proof.
  destruct l as [[lo la]]. repeat split.
Qed.

(** ** Config *)

(** C9.  Default construction sets [useRightEye = false],
    [computeScreenBounds = true], [useFieldAngles = true], [toMeters = 1.0],
    [depth = 2.0], [verifyAngles = false], [verbose = false]; [xx], [xy],
    [yx], [yy], [maxAngleDiffDegrees] and [suppliedScreenBounds] receive
    nothing: they hold whatever the storage held. *)
Theorem Config_default_init_spec (mem : Config.t) :
  let c := Config.default_init mem in
  (Config.useRightEye c = false
   /\ Config.computeScreenBounds c = true
   /\ Config.useFieldAngles c = true
   /\ Config.toMeters c = 1
   /\ Config.depth c = 2
   /\ Config.verifyAngles c = false
   /\ Config.verbose c = false)
  /\ (Config.xx c = Config.xx mem
      /\ Config.xy c = Config.xy mem
      /\ Config.yx c = Config.yx mem
      /\ Config.yy c = Config.yy mem
      /\ Config.maxAngleDiffDegrees c = Config.maxAngleDiffDegrees mem
      /\ Config.suppliedScreenBounds c = Config.suppliedScreenBounds mem).
Proof.
  cbv zeta. repeat split.
Qed.

(** No value is excluded for a member without initialiser. *)
Lemma Config_default_init_unconstrained
    (b : RectBoundsd) (vxx vxy vyx vyy vmax : double) :
  exists mem,
    let c := Config.default_init mem in
    Config.suppliedScreenBounds c = b
    /\ Config.xx c = vxx /\ Config.xy c = vxy
    /\ Config.yx c = vyx /\ Config.yy c = vyy
    /\ Config.maxAngleDiffDegrees c = vmax.
Proof.
  exists (Config.mk false false b false 0 0 false vxx vxy vyx vyy vmax false).
  cbv zeta. repeat split.
Qed.

(** ** XYLatLong and Mapping *)

Lemma XYLatLong_make_eq (px py plat plong : double) :
  XYLatLong.make px py plat plong = XYLatLong.mk px py plat plong.
Proof. reflexivity. Qed.

Lemma XYLatLong_make_default_eq : XYLatLong.make_default = XYLatLong.mk 0 0 0 0.
Proof. reflexivity. Qed.



(** ** XYZ *)

Lemma XYZ_make_in_storage (mem : XYZ.t) (px py pz : double) :
  XYZ.make_in mem px py pz = XYZ.mk px py pz.
Proof. reflexivity. Qed.

Lemma XYZ_make_in_storage_make (px py pz : double) :
  XYZ.make px py pz = XYZ.mk px py pz.
Proof. reflexivity. Qed.

Lemma XYZ_make_default_in_storage (mem : XYZ.t) :
  XYZ.make_default_in mem = XYZ.mk 0 0 0.
Proof. reflexivity. Qed.


(** What the projection returns when the division has a result. *)
Lemma projectOntoPlane_defined (P : XYZ.t) (A B C D : double) :
  planeDenominator P A B C <> 0 ->
  XYZ.projectOntoPlane P A B C D
  = Some (XYZ.mk (- D / planeDenominator P A B C * XYZ.x P)
                 (- D / planeDenominator P A B C * XYZ.y P)
                 (- D / planeDenominator P A B C * XYZ.z P)).
Proof.
  intros Hden. unfold XYZ.projectOntoPlane, planeDenominator in *.
  rewrite (fdiv_defined _ _ Hden). reflexivity.
Qed.

Lemma projectOntoPlane_undefined (P : XYZ.t) (A B C D : double) :
  planeDenominator P A B C = 0 ->
  XYZ.projectOntoPlane P A B C D = None.
Proof.
  intros Hden. unfold XYZ.projectOntoPlane, planeDenominator in *.
  rewrite Hden, fdiv_undefined. reflexivity.
Qed.

(** C1.  When the denominator [A*Px + B*Py + C*Pz] is nonzero, the
    projection returns a point [Q] that satisfies the plane equation
    [A*Qx + B*Qy + C*Qz + D = 0] and is a scalar multiple of [P]. *)
Theorem projectOntoPlane_on_plane_collinear (A B C D : double) (P : XYZ.t) :
  A * XYZ.x P + B * XYZ.y P + C * XYZ.z P <> 0 ->
  exists Q : XYZ.t,
    XYZ.projectOntoPlane P A B C D = Some Q
    /\ A * XYZ.x Q + B * XYZ.y Q + C * XYZ.z Q + D = 0
    /\ collinearWithOrigin P Q.
Proof.
  intros Hden. eexists. split.
  - apply projectOntoPlane_defined. exact Hden.
  - unfold planeDenominator. cbn [XYZ.x XYZ.y XYZ.z]. split.
    + set (den := A * XYZ.x P + B * XYZ.y P + C * XYZ.z P) in *.
      replace (A * (- D / den * XYZ.x P) + B * (- D / den * XYZ.y P)
               + C * (- D / den * XYZ.z P))
        with (- D / den * den) by (unfold den; ring).
      field. exact Hden.
    + exists (- D / (A * XYZ.x P + B * XYZ.y P + C * XYZ.z P)).
      repeat split.
Qed.

Lemma projectOntoPlane_on_plane_collinear_witness :
  1 * XYZ.x (XYZ.mk 1 2 4) + 0 * XYZ.y (XYZ.mk 1 2 4)
  + 0 * XYZ.z (XYZ.mk 1 2 4) <> 0
  /\ exists Q : XYZ.t,
    XYZ.projectOntoPlane (XYZ.mk 1 2 4) 1 0 0 (-3) = Some Q
    /\ 1 * XYZ.x Q + 0 * XYZ.y Q + 0 * XYZ.z Q + (-3) = 0
    /\ collinearWithOrigin (XYZ.mk 1 2 4) Q.
Proof.
  assert (Hden : 1 * XYZ.x (XYZ.mk 1 2 4) + 0 * XYZ.y (XYZ.mk 1 2 4)
                 + 0 * XYZ.z (XYZ.mk 1 2 4) <> 0) by (simpl; lra).
  split; [exact Hden |].
  exact (projectOntoPlane_on_plane_collinear 1 0 0 (-3) (XYZ.mk 1 2 4) Hden).
Defined.

(** C2.  The projection has no result exactly when the denominator
    [A*x + B*y + C*z] is zero (the ray through the origin is parallel to the
    plane), and with a nonzero denominator its one division has a result, so
    it returns a point. *)
Theorem projectOntoPlane_fails_iff_parallel (P : XYZ.t) (A B C D : double) :
  (XYZ.projectOntoPlane P A B C D = None
   <-> A * XYZ.x P + B * XYZ.y P + C * XYZ.z P = 0)
  /\ (A * XYZ.x P + B * XYZ.y P + C * XYZ.z P <> 0 ->
      fdiv (- D) (A * XYZ.x P + B * XYZ.y P + C * XYZ.z P)
      = Some (- D / (A * XYZ.x P + B * XYZ.y P + C * XYZ.z P))
      /\ exists Q, XYZ.projectOntoPlane P A B C D = Some Q).
Proof.
  split; [split |].
  - intros Hnone.
    destruct (Req_dec_T (A * XYZ.x P + B * XYZ.y P + C * XYZ.z P) 0) as [E | N];
      [exact E |].
    rewrite (projectOntoPlane_defined P A B C D N) in Hnone. discriminate.
  - apply projectOntoPlane_undefined.
  - intros Hden. split.
    + apply fdiv_defined, Hden.
    + eexists. apply projectOntoPlane_defined, Hden.
Qed.

(** The projection applies no tolerance: a denominator as small as one
    likes, as long as it is not zero, still gives a point. *)
Lemma projectOntoPlane_small_denominator (eps D : double) :
  0 < eps ->
  exists Q, XYZ.projectOntoPlane (XYZ.mk (eps / 2) 0 0) 1 0 0 D = Some Q.
Proof.
  intros Heps. eexists. apply projectOntoPlane_defined.
  unfold planeDenominator. cbn [XYZ.x XYZ.y XYZ.z]. lra.
Qed.

Lemma projectOntoPlane_fails_iff_parallel_witness :
  XYZ.projectOntoPlane (XYZ.mk 1 0 0) 0 1 0 5 = None
  /\ exists Q, XYZ.projectOntoPlane (XYZ.mk 0 2 0) 0 1 0 5 = Some Q.
Proof.
  split.
  - apply (proj1 (projectOntoPlane_fails_iff_parallel (XYZ.mk 1 0 0) 0 1 0 5)).
    simpl. lra.
  - apply (proj2 (projectOntoPlane_fails_iff_parallel (XYZ.mk 0 2 0) 0 1 0 5)).
    simpl. lra.
Defined.

(** C10.  With [D] nonzero, a point that satisfies the plane equation is
    returned unchanged by the projection. *)
Theorem projectOntoPlane_fixes_plane_points (A B C D : double) (P : XYZ.t) :
  D <> 0 ->
  A * XYZ.x P + B * XYZ.y P + C * XYZ.z P + D = 0 ->
  XYZ.projectOntoPlane P A B C D = Some P.
Proof.
  intros HD Hon.
  assert (Hden : planeDenominator P A B C = - D) by (unfold planeDenominator; lra).
  assert (Hnz : planeDenominator P A B C <> 0) by (rewrite Hden; lra).
  rewrite (projectOntoPlane_defined P A B C D Hnz), Hden.
  destruct P as [px py pz]. cbn [XYZ.x XYZ.y XYZ.z].
  f_equal. f_equal; field; lra.
Qed.

Lemma projectOntoPlane_fixes_plane_points_witness :
  2 <> 0
  /\ 0 * XYZ.x (XYZ.mk 3 5 (-1)) + 0 * XYZ.y (XYZ.mk 3 5 (-1))
     + 2 * XYZ.z (XYZ.mk 3 5 (-1)) + 2 = 0
  /\ XYZ.projectOntoPlane (XYZ.mk 3 5 (-1)) 0 0 2 2 = Some (XYZ.mk 3 5 (-1)).
Proof.
  assert (HD : 2 <> 0) by lra.
  assert (Hon : 0 * XYZ.x (XYZ.mk 3 5 (-1)) + 0 * XYZ.y (XYZ.mk 3 5 (-1))
                + 2 * XYZ.z (XYZ.mk 3 5 (-1)) + 2 = 0) by (simpl; lra).
  split; [exact HD | split; [exact Hon |]].
  exact (projectOntoPlane_fixes_plane_points 0 0 2 2 (XYZ.mk 3 5 (-1)) HD Hon).
Defined.


(** C6.  [p.distanceFrom(q)] is the Euclidean distance of [p] and [q]. *)
Theorem distanceFrom_euclidean (p q : XYZ.t) :
  XYZ.distanceFrom p q = euclideanDistance p q.
Proof.
  unfold XYZ.distanceFrom, euclideanDistance. f_equal. ring.
Qed.

Lemma distanceFrom_nonneg (p q : XYZ.t) : 0 <= XYZ.distanceFrom p q.
Proof. unfold XYZ.distanceFrom. apply sqrt_pos. Qed.

Lemma distanceFrom_sym (p q : XYZ.t) :
  XYZ.distanceFrom p q = XYZ.distanceFrom q p.
Proof. unfold XYZ.distanceFrom. f_equal. ring. Qed.

Lemma distanceFrom_self (p : XYZ.t) : XYZ.distanceFrom p p = 0.
Proof.
  unfold XYZ.distanceFrom.
  replace ((XYZ.x p - XYZ.x p) * (XYZ.x p - XYZ.x p)
           + (XYZ.y p - XYZ.y p) * (XYZ.y p - XYZ.y p)
           + (XYZ.z p - XYZ.z p) * (XYZ.z p - XYZ.z p)) with 0 by ring.
  apply sqrt_0.
Qed.

(** ** atan2 and rotationAboutY *)

Lemma polar_quotient (r t : R) :
  0 < r -> cos t <> 0 -> r * sin t / (r * cos t) = tan t.
Proof. intros Hr Hc. unfold tan. field. split; lra. Qed.

Lemma tan_shift_PI (t : R) : cos t <> 0 -> tan (t + PI) = tan t.
Proof.
  intros Hc. unfold tan. rewrite neg_sin, neg_cos. field. exact Hc.
Qed.

Lemma cos_neg_left (t : R) : - PI < t -> t < - (PI / 2) -> cos t < 0.
Proof.
  intros H1 H2. rewrite <- cos_neg. apply cos_lt_0; pose proof PI_RGT_0; lra.
Qed.

Lemma atan2_polar (r t : R) :
  0 < r -> - PI < t <= PI -> atan2 (r * sin t) (r * cos t) = t.
Proof.
  intros Hr [Hlo Hhi]. pose proof PI_RGT_0 as Hpi.
  destruct (Rlt_dec t (- (PI / 2))) as [Hc | Hc].
  - (* third quadrant *)
    assert (Hcos : cos t < 0) by (apply cos_neg_left; lra).
    assert (Hsin : sin t < 0) by (apply sin_lt_0_var; lra).
    unfold atan2.
    destruct (Rlt_dec 0 (r * cos t)) as [H | _]; [nra |].
    destruct (Rlt_dec (r * cos t) 0) as [_ | H]; [| nra].
    destruct (Rle_dec 0 (r * sin t)) as [H | _]; [nra |].
    rewrite polar_quotient by lra.
    rewrite <- (tan_shift_PI t) by lra.
    rewrite atan_tan by lra. lra.
  - destruct (Req_dec_T t (- (PI / 2))) as [E | Hne].
    + (* straight down *)
      subst t. rewrite cos_neg, sin_neg, cos_PI2, sin_PI2.
      unfold atan2. replace (r * 0) with 0 by ring.
      destruct (Rlt_dec 0 0) as [H | _]; [lra |].
      destruct (Rlt_dec 0 (r * - (1))) as [H | _]; [lra |].
      destruct (Rlt_dec (r * - (1)) 0) as [_ | H]; [reflexivity | lra].
    + destruct (Rlt_dec t (PI / 2)) as [Hm | Hm].
      * (* right half plane *)
        assert (Hcos : 0 < cos t) by (apply cos_gt_0; lra).
        unfold atan2.
        destruct (Rlt_dec 0 (r * cos t)) as [_ | H]; [| nra].
        rewrite polar_quotient by lra.
        apply atan_tan. lra.
      * destruct (Req_dec_T t (PI / 2)) as [E | Hne2].
        -- (* straight up *)
           subst t. rewrite cos_PI2, sin_PI2.
           unfold atan2. replace (r * 0) with 0 by ring.
           destruct (Rlt_dec 0 0) as [H | _]; [lra |].
           destruct (Rlt_dec 0 (r * 1)) as [_ | H]; [reflexivity | lra].
        -- (* second quadrant *)
           assert (Hcos : cos t < 0) by (apply cos_lt_0; lra).
           assert (Hsin : 0 <= sin t) by (apply sin_ge_0; lra).
           unfold atan2.
           destruct (Rlt_dec 0 (r * cos t)) as [H | _]; [nra |].
           destruct (Rlt_dec (r * cos t) 0) as [_ | H]; [| nra].
           destruct (Rle_dec 0 (r * sin t)) as [_ | H]; [| nra].
           rewrite polar_quotient by lra.
           assert (Hc' : cos (t - PI) <> 0).
           { replace (cos t) with (cos (t - PI + PI)) in Hcos by (f_equal; ring).
             rewrite neg_cos in Hcos. lra. }
           replace (tan t) with (tan (t - PI))
             by (rewrite <- (tan_shift_PI (t - PI) Hc'); f_equal; ring).
           rewrite atan_tan by lra. lra.
Qed.

Lemma atan2_origin_axis_values :
  atan2 0 1 = 0 /\ atan2 1 0 = PI / 2 /\ atan2 (- 1) 0 = - (PI / 2).
Proof.
  unfold atan2. repeat split.
  - destruct (Rlt_dec 0 1) as [_ | H]; [| lra].
    replace (0 / 1) with 0 by field. apply atan_0.
  - destruct (Rlt_dec 0 0) as [H | _]; [lra |].
    destruct (Rlt_dec 0 1) as [_ | H]; [reflexivity | lra].
  - destruct (Rlt_dec 0 0) as [H | _]; [lra |].
    destruct (Rlt_dec 0 (- 1)) as [H | _]; [lra |].
    destruct (Rlt_dec (- 1) 0) as [_ | H]; [reflexivity | lra].
Qed.


(** [rotationAboutY] recovers the angle of every such direction. *)
Lemma rotationAboutY_turnedAboutY (r t h : double) :
  0 < r -> - PI < t <= PI -> XYZ.rotationAboutY (turnedAboutY r t h) = t.
Proof.
  intros Hr Ht. unfold XYZ.rotationAboutY, turnedAboutY.
  rewrite XYZ_make_in_storage_make. cbn [XYZ.x XYZ.z].
  rewrite !Ropp_involutive. apply atan2_polar; assumption.
Qed.

(** C3.  [rotationAboutY] is [atan2(-x, -z)]: it returns [0] on
    [(0,0,-1)], [PI/2] on [(-1,0,0)] and [-PI/2] on [(1,0,0)]. *)
Theorem rotationAboutY_axes :
  (forall p : XYZ.t, XYZ.rotationAboutY p = atan2 (- XYZ.x p) (- XYZ.z p))
  /\ XYZ.rotationAboutY (XYZ.make 0 0 (- 1)) = 0
  /\ XYZ.rotationAboutY (XYZ.make (- 1) 0 0) = PI / 2
  /\ XYZ.rotationAboutY (XYZ.make 1 0 0) = - (PI / 2).
Proof.
  destruct atan2_origin_axis_values as (H0 & Hp & Hm).
  split; [reflexivity |].
  repeat split; unfold XYZ.rotationAboutY;
    rewrite XYZ_make_in_storage_make; cbn [XYZ.x XYZ.z].
  - replace (- 0) with 0 by lra. replace (- (-1)) with 1 by lra. exact H0.
  - replace (- (-1)) with 1 by lra. replace (- 0) with 0 by lra. exact Hp.
  - replace (- 0) with 0 by lra. exact Hm.
Qed.

(** ** Mesh builder *)

Section MeshBuilderFacts.

Variable normalizeProjected : ScreenDescription.t -> XYZ.t -> Point2d.
Variable normalizeRaw : RectBoundsd -> Point2d -> Point2d.
Variable cfg : Config.t.
Variable screen : ScreenDescription.t.
Variable bounds : RectBoundsd.

Let entryOf := meshEntry normalizeProjected normalizeRaw cfg screen bounds.
Let loop := findMesh_loop normalizeProjected normalizeRaw cfg screen bounds.

(** The loop appends, to the mesh it starts from, the entries of the
    mappings it is given, one for one and in order. *)
Lemma findMesh_loop_appends (ms : list Mapping.t) :
  forall acc mesh,
    loop ms acc = Some mesh ->
    exists es, mesh = acc ++ es
               /\ Forall2 (fun m e => entryOf m = Some e) ms es.
Proof.
  induction ms as [| m rest IH]; intros acc mesh Hrun; simpl in Hrun.
  - injection Hrun as <-. exists []. split; [now rewrite app_nil_r | constructor].
  - fold entryOf in Hrun. destruct (entryOf m) as [e |] eqn:He; [| discriminate].
    simpl in Hrun. apply IH in Hrun as (es & -> & Hall).
    exists (e :: es). split.
    + now rewrite <- app_assoc.
    + constructor; assumption.
Qed.

(** The loop has a result as soon as every mapping has an entry. *)
Lemma findMesh_loop_total (ms : list Mapping.t) :
  Forall (fun m => entryOf m <> None) ms ->
  forall acc, exists mesh, loop ms acc = Some mesh.
Proof.
  induction 1 as [| m rest Hm _ IH]; intros acc; simpl.
  - now exists acc.
  - fold entryOf. destruct (entryOf m) as [e |]; [| contradiction].
    simpl. apply IH.
Qed.

Lemma meshEntry_to (m : Mapping.t) (e : MeshEntry) :
  entryOf m = Some e ->
  Array2.get e Array2.i1 = toCoordinate normalizeRaw cfg bounds m.
Proof.
  unfold entryOf, meshEntry.
  destruct (XYZ.projectOntoPlane _ _ _ _ _) as [q |]; simpl; [| discriminate].
  now intros [= <-].
Qed.

End MeshBuilderFacts.

(** C5.  A mesh returned by the mesh builder has one entry per input
    mapping, in input order, and the "to" coordinate of entry [i] is the
    normalised raw screen position of sample [i]. *)
Theorem findMesh_entry_per_mapping
    (normalizeProjected : ScreenDescription.t -> XYZ.t -> Point2d)
    (normalizeRaw : RectBoundsd -> Point2d -> Point2d)
    (cfg : Config.t) (screen : ScreenDescription.t) (bounds : RectBoundsd)
    (ms : list Mapping.t) (mesh : MeshDescription) :
  findMesh normalizeProjected normalizeRaw cfg screen bounds ms = Some mesh ->
  length mesh = length ms
  /\ forall (i : nat) (m : Mapping.t),
       nth_error ms i = Some m ->
       exists e : MeshEntry,
         nth_error mesh i = Some e
         /\ meshEntry normalizeProjected normalizeRaw cfg screen bounds m = Some e
         /\ Array2.get e Array2.i1
            = normalizeRaw (eyeBounds cfg bounds)
                (Array2.mk (XYLatLong.x (Mapping.xyLatLong m))
                           (XYLatLong.y (Mapping.xyLatLong m))).
Proof.
  intros Hrun. unfold findMesh in Hrun.
  apply findMesh_loop_appends in Hrun as (es & -> & Hall). simpl.
  split.
  - symmetry. eapply Forall2_length; eassumption.
  - induction Hall as [| m0 e0 ms' es' He0 _ IH]; intros i m Hi.
    + destruct i; discriminate.
    + destruct i as [| i]; simpl in *.
      * injection Hi as <-. exists e0. repeat split; try assumption.
        now apply (meshEntry_to _ _ _ _ _ _ _ He0).
      * apply IH, Hi.
Qed.


Lemma sampleMesh_built :
  findMesh sampleNormalizeProjected sampleNormalizeRaw sampleConfig
    sampleScreen sampleBounds sampleMappings
  = Some sampleMesh.
Proof.
  unfold findMesh, sampleMappings, findMesh_loop, meshEntry.
  rewrite !projectOntoPlane_defined
    by (unfold planeDenominator; cbn; lra).
  unfold planeDenominator, toCoordinate, eyeBounds, sampleNormalizeProjected,
    sampleNormalizeRaw, sampleMesh.
  cbn.
  repeat f_equal; field.
Qed.

Lemma findMesh_entry_per_mapping_witness :
  findMesh sampleNormalizeProjected sampleNormalizeRaw sampleConfig
    sampleScreen sampleBounds sampleMappings = Some sampleMesh
  /\ length sampleMesh = length sampleMappings
  /\ forall (i : nat) (m : Mapping.t),
       nth_error sampleMappings i = Some m ->
       exists e : MeshEntry,
         nth_error sampleMesh i = Some e
         /\ meshEntry sampleNormalizeProjected sampleNormalizeRaw sampleConfig
              sampleScreen sampleBounds m = Some e
         /\ Array2.get e Array2.i1
            = sampleNormalizeRaw (eyeBounds sampleConfig sampleBounds)
                (Array2.mk (XYLatLong.x (Mapping.xyLatLong m))
                           (XYLatLong.y (Mapping.xyLatLong m))).
Proof.
  split; [exact sampleMesh_built |].
  apply (findMesh_entry_per_mapping sampleNormalizeProjected sampleNormalizeRaw
           sampleConfig sampleScreen sampleBounds sampleMappings sampleMesh).
  exact sampleMesh_built.
Defined.

(* ================================================================== *)
(** * Further properties of the header *)

(** ** RectBounds *)

(** X1.  Mirroring keeps the width and the height of a rectangle, negates
    its horizontal centre, and keeps [left <= right]. *)
Theorem reflectedHorizontally_keeps_extent (b : RectBoundsd) :
  let r := RectBounds.reflectedHorizontally b in
  RectBounds.right r - RectBounds.left r
  = RectBounds.right b - RectBounds.left b
  /\ RectBounds.top r - RectBounds.bottom r
     = RectBounds.top b - RectBounds.bottom b
  /\ (RectBounds.left r + RectBounds.right r) / 2
     = - ((RectBounds.left b + RectBounds.right b) / 2)
  /\ (RectBounds.left b <= RectBounds.right b
      <-> RectBounds.left r <= RectBounds.right r).
Proof.
  destruct b as [l r t0 b0]. cbv zeta.
  unfold RectBounds.reflectedHorizontally, negate, Negate_double.
  cbn [RectBounds.left RectBounds.right RectBounds.top RectBounds.bottom].
  repeat split; try lra.
Qed.

(** X2.  A horizontal position lies between [left] and [right] exactly when
    its mirror image lies between them in the mirrored rectangle. *)
Theorem reflectedHorizontally_mirrors_points (b : RectBoundsd) (x : double) :
  let r := RectBounds.reflectedHorizontally b in
  RectBounds.left b <= x <= RectBounds.right b
  <-> RectBounds.left r <= - x <= RectBounds.right r.
Proof.
  destruct b as [l r t0 b0]. cbv zeta.
  unfold RectBounds.reflectedHorizontally, negate, Negate_double.
  cbn [RectBounds.left RectBounds.right]. split; lra.
Qed.

(** ** projectOntoPlane *)

(** X3.  The projection depends only on the line through the origin and the
    point: a nonzero multiple of the point, also a negative one, has the same
    projection (or, like the point, none). *)
Theorem projectOntoPlane_scale_point (k A B C D : double) (P : XYZ.t) :
  k <> 0 ->
  XYZ.projectOntoPlane
    (XYZ.mk (k * XYZ.x P) (k * XYZ.y P) (k * XYZ.z P)) A B C D
  = XYZ.projectOntoPlane P A B C D.
Proof.
  intros Hk. destruct P as [px py pz]. cbn [XYZ.x XYZ.y XYZ.z].
  destruct (Req_dec_T (planeDenominator (XYZ.mk px py pz) A B C) 0) as [E | N].
  - rewrite (projectOntoPlane_undefined _ _ _ _ _ E).
    apply projectOntoPlane_undefined.
    unfold planeDenominator in *. cbn [XYZ.x XYZ.y XYZ.z] in *.
    replace (A * (k * px) + B * (k * py) + C * (k * pz))
      with (k * (A * px + B * py + C * pz)) by ring.
    rewrite E. lra.
  - assert (N' : planeDenominator (XYZ.mk (k * px) (k * py) (k * pz)) A B C <> 0).
    { unfold planeDenominator in *. cbn [XYZ.x XYZ.y XYZ.z] in *.
      replace (A * (k * px) + B * (k * py) + C * (k * pz))
        with (k * (A * px + B * py + C * pz)) by ring.
      apply Rmult_integral_contrapositive_currified; assumption. }
    rewrite (projectOntoPlane_defined _ _ _ _ D N).
    rewrite (projectOntoPlane_defined _ _ _ _ D N').
    unfold planeDenominator in *. cbn [XYZ.x XYZ.y XYZ.z] in *.
    replace (A * (k * px) + B * (k * py) + C * (k * pz))
      with (k * (A * px + B * py + C * pz)) in * by ring.
    f_equal. f_equal; field; split; assumption.
Qed.

Lemma projectOntoPlane_scale_point_witness :
  2 <> 0
  /\ XYZ.projectOntoPlane
       (XYZ.mk (2 * XYZ.x (XYZ.mk 1 2 3)) (2 * XYZ.y (XYZ.mk 1 2 3))
               (2 * XYZ.z (XYZ.mk 1 2 3))) 0 0 1 1
     = XYZ.projectOntoPlane (XYZ.mk 1 2 3) 0 0 1 1.
Proof.
  assert (Hk : 2 <> 0) by lra.
  split; [exact Hk |].
  exact (projectOntoPlane_scale_point 2 0 0 1 1 (XYZ.mk 1 2 3) Hk).
Defined.

(** X4.  Multiplying the four plane coefficients by a nonzero factor, which
    describes the same plane, does not change the projection. *)
Theorem projectOntoPlane_scale_plane (k A B C D : double) (P : XYZ.t) :
  k <> 0 ->
  XYZ.projectOntoPlane P (k * A) (k * B) (k * C) (k * D)
  = XYZ.projectOntoPlane P A B C D.
Proof.
  intros Hk. destruct P as [px py pz]. cbn [XYZ.x XYZ.y XYZ.z].
  destruct (Req_dec_T (planeDenominator (XYZ.mk px py pz) A B C) 0) as [E | N].
  - rewrite (projectOntoPlane_undefined _ _ _ _ _ E).
    apply projectOntoPlane_undefined.
    unfold planeDenominator in *. cbn [XYZ.x XYZ.y XYZ.z] in *.
    replace (k * A * px + k * B * py + k * C * pz)
      with (k * (A * px + B * py + C * pz)) by ring.
    rewrite E. lra.
  - assert (N' : planeDenominator (XYZ.mk px py pz) (k * A) (k * B) (k * C) <> 0).
    { unfold planeDenominator in *. cbn [XYZ.x XYZ.y XYZ.z] in *.
      replace (k * A * px + k * B * py + k * C * pz)
        with (k * (A * px + B * py + C * pz)) by ring.
      apply Rmult_integral_contrapositive_currified; assumption. }
    rewrite (projectOntoPlane_defined _ _ _ _ D N).
    rewrite (projectOntoPlane_defined _ _ _ _ (k * D) N').
    unfold planeDenominator in *. cbn [XYZ.x XYZ.y XYZ.z] in *.
    replace (k * A * px + k * B * py + k * C * pz)
      with (k * (A * px + B * py + C * pz)) in * by ring.
    f_equal. f_equal; field; split; assumption.
Qed.

Lemma projectOntoPlane_scale_plane_witness :
  -3 <> 0
  /\ XYZ.projectOntoPlane (XYZ.mk 1 2 3) (-3 * 0) (-3 * 0) (-3 * 1) (-3 * 1)
     = XYZ.projectOntoPlane (XYZ.mk 1 2 3) 0 0 1 1.
Proof.
  assert (Hk : -3 <> 0) by lra.
  split; [exact Hk |].
  exact (projectOntoPlane_scale_plane (-3) 0 0 1 1 (XYZ.mk 1 2 3) Hk).
Defined.

(** A point returned by the projection satisfies the plane equation. *)
Lemma projectOntoPlane_result_on_plane (A B C D : double) (P Q : XYZ.t) :
  XYZ.projectOntoPlane P A B C D = Some Q ->
  planeDenominator P A B C <> 0
  /\ Q = XYZ.mk (- D / planeDenominator P A B C * XYZ.x P)
                (- D / planeDenominator P A B C * XYZ.y P)
                (- D / planeDenominator P A B C * XYZ.z P)
  /\ planeDenominator Q A B C = - D.
Proof.
  intros HQ.
  destruct (Req_dec_T (planeDenominator P A B C) 0) as [E | N].
  - rewrite (projectOntoPlane_undefined _ _ _ _ _ E) in HQ. discriminate.
  - rewrite (projectOntoPlane_defined _ _ _ _ D N) in HQ.
    injection HQ as <-. split; [exact N | split; [reflexivity |]].
    unfold planeDenominator in *. cbn [XYZ.x XYZ.y XYZ.z].
    set (den := A * XYZ.x P + B * XYZ.y P + C * XYZ.z P) in *.
    replace (A * (- D / den * XYZ.x P) + B * (- D / den * XYZ.y P)
             + C * (- D / den * XYZ.z P))
      with (- D / den * den) by (unfold den; ring).
    unfold double. field. exact N.
Qed.

(** X5.  Projecting is idempotent for a plane that misses the origin: a
    point the projection returns is returned again, unchanged, when it is
    projected a second time. *)
Theorem projectOntoPlane_idempotent (A B C D : double) (P Q : XYZ.t) :
  D <> 0 ->
  XYZ.projectOntoPlane P A B C D = Some Q ->
  XYZ.projectOntoPlane Q A B C D = Some Q.
Proof.
  intros HD HQ.
  destruct (projectOntoPlane_result_on_plane _ _ _ _ _ _ HQ) as (_ & _ & Hden).
  assert (Hnz : planeDenominator Q A B C <> 0) by (rewrite Hden; lra).
  rewrite (projectOntoPlane_defined _ _ _ _ D Hnz), Hden.
  destruct Q as [qx qy qz]. cbn [XYZ.x XYZ.y XYZ.z].
  f_equal. f_equal; field; lra.
Qed.

Lemma projectOntoPlane_idempotent_witness :
  2 <> 0
  /\ XYZ.projectOntoPlane (XYZ.mk 6 10 (-2)) 0 0 2 2 = Some (XYZ.mk 3 5 (-1))
  /\ XYZ.projectOntoPlane (XYZ.mk 3 5 (-1)) 0 0 2 2 = Some (XYZ.mk 3 5 (-1)).
Proof.
  assert (HD : 2 <> 0) by lra.
  assert (HQ : XYZ.projectOntoPlane (XYZ.mk 6 10 (-2)) 0 0 2 2
               = Some (XYZ.mk 3 5 (-1))).
  { rewrite projectOntoPlane_defined by (unfold planeDenominator; simpl; lra).
    unfold planeDenominator. simpl. f_equal. f_equal; field. }
  split; [exact HD | split; [exact HQ |]].
  exact (projectOntoPlane_idempotent 0 0 2 2 (XYZ.mk 6 10 (-2))
           (XYZ.mk 3 5 (-1)) HD HQ).
Defined.

(** X6.  The origin has no projection, onto any plane: its denominator is
    zero whatever the coefficients are. *)
Theorem projectOntoPlane_origin_undefined (A B C D : double) :
  XYZ.projectOntoPlane XYZ.make_default A B C D = None
  /\ XYZ.projectOntoPlane (XYZ.make 0 0 0) A B C D = None.
Proof.
  split; apply projectOntoPlane_undefined;
    unfold planeDenominator; cbn; lra.
Qed.

(** X7.  Onto a plane through the origin ([D = 0]) every point that has a
    projection is sent to the origin, so the result cannot be projected
    again. *)
Theorem projectOntoPlane_plane_through_origin (A B C : double) (P Q : XYZ.t) :
  XYZ.projectOntoPlane P A B C 0 = Some Q ->
  Q = XYZ.mk 0 0 0 /\ XYZ.projectOntoPlane Q A B C 0 = None.
Proof.
  intros HQ.
  destruct (projectOntoPlane_result_on_plane _ _ _ _ _ _ HQ) as (N & -> & _).
  assert (E : XYZ.mk (- 0 / planeDenominator P A B C * XYZ.x P)
                     (- 0 / planeDenominator P A B C * XYZ.y P)
                     (- 0 / planeDenominator P A B C * XYZ.z P)
              = XYZ.mk 0 0 0).
  { f_equal; field; exact N. }
  rewrite E. split; [reflexivity |].
  apply projectOntoPlane_undefined. unfold planeDenominator. cbn. lra.
Qed.

Lemma projectOntoPlane_plane_through_origin_witness :
  XYZ.projectOntoPlane (XYZ.mk 1 2 3) 1 0 0 0 = Some (XYZ.mk 0 0 0)
  /\ XYZ.mk 0 0 0 = XYZ.mk 0 0 0
  /\ XYZ.projectOntoPlane (XYZ.mk 0 0 0) 1 0 0 0 = None.
Proof.
  assert (HQ : XYZ.projectOntoPlane (XYZ.mk 1 2 3) 1 0 0 0
               = Some (XYZ.mk 0 0 0)).
  { rewrite projectOntoPlane_defined by (unfold planeDenominator; simpl; lra).
    unfold planeDenominator. simpl. f_equal. f_equal; field. }
  split; [exact HQ |].
  exact (projectOntoPlane_plane_through_origin 1 0 0 (XYZ.mk 1 2 3)
           (XYZ.mk 0 0 0) HQ).
Defined.

(** ** The projection as an intersection *)

(** X8.  The projection returns the only point of the line through the
    origin and [P] that satisfies the plane equation: whenever a multiple
    [t * P] lies on the plane and the denominator is nonzero, that multiple
    is what [projectOntoPlane] returns. *)
Theorem projectOntoPlane_unique (A B C D t : double) (P : XYZ.t) :
  A * XYZ.x P + B * XYZ.y P + C * XYZ.z P <> 0 ->
  A * (t * XYZ.x P) + B * (t * XYZ.y P) + C * (t * XYZ.z P) + D = 0 ->
  XYZ.projectOntoPlane P A B C D
  = Some (XYZ.mk (t * XYZ.x P) (t * XYZ.y P) (t * XYZ.z P)).
Proof.
  intros Hden Hon.
  rewrite (projectOntoPlane_defined P A B C D Hden). unfold planeDenominator.
  set (den := A * XYZ.x P + B * XYZ.y P + C * XYZ.z P) in *.
  assert (Ht : - D / den = t).
  { assert (E : t * den = - D) by (unfold den; lra).
    rewrite <- E. field. exact Hden. }
  rewrite Ht. reflexivity.
Qed.

Lemma projectOntoPlane_unique_witness :
  0 * XYZ.x (XYZ.mk 6 10 (-2)) + 0 * XYZ.y (XYZ.mk 6 10 (-2))
  + 2 * XYZ.z (XYZ.mk 6 10 (-2)) <> 0
  /\ 0 * (1 / 2 * XYZ.x (XYZ.mk 6 10 (-2)))
     + 0 * (1 / 2 * XYZ.y (XYZ.mk 6 10 (-2)))
     + 2 * (1 / 2 * XYZ.z (XYZ.mk 6 10 (-2))) + 2 = 0
  /\ XYZ.projectOntoPlane (XYZ.mk 6 10 (-2)) 0 0 2 2
     = Some (XYZ.mk (1 / 2 * XYZ.x (XYZ.mk 6 10 (-2)))
                    (1 / 2 * XYZ.y (XYZ.mk 6 10 (-2)))
                    (1 / 2 * XYZ.z (XYZ.mk 6 10 (-2)))).
Proof.
  assert (Hden : 0 * XYZ.x (XYZ.mk 6 10 (-2)) + 0 * XYZ.y (XYZ.mk 6 10 (-2))
                 + 2 * XYZ.z (XYZ.mk 6 10 (-2)) <> 0) by (simpl; lra).
  assert (Hon : 0 * (1 / 2 * XYZ.x (XYZ.mk 6 10 (-2)))
                + 0 * (1 / 2 * XYZ.y (XYZ.mk 6 10 (-2)))
                + 2 * (1 / 2 * XYZ.z (XYZ.mk 6 10 (-2))) + 2 = 0)
    by (simpl; lra).
  split; [exact Hden | split; [exact Hon |]].
  exact (projectOntoPlane_unique 0 0 2 2 (1 / 2) (XYZ.mk 6 10 (-2)) Hden Hon).
Defined.

(** X9.  When the projection has no result the line through the origin and
    the point does not meet the plane in one point: for [D] nonzero no
    multiple of the point lies on the plane, and for [D = 0] every multiple
    does; in the second case the code still returns nothing. *)
Theorem projectOntoPlane_parallel_line (A B C D : double) (P : XYZ.t) :
  XYZ.projectOntoPlane P A B C D = None ->
  (D <> 0 ->
   forall t, A * (t * XYZ.x P) + B * (t * XYZ.y P) + C * (t * XYZ.z P) + D <> 0)
  /\ (D = 0 ->
      forall t, A * (t * XYZ.x P) + B * (t * XYZ.y P) + C * (t * XYZ.z P) + D = 0).
Proof.
  intros Hnone.
  assert (Hden : A * XYZ.x P + B * XYZ.y P + C * XYZ.z P = 0).
  { destruct (Req_dec_T (planeDenominator P A B C) 0) as [E | N]; [exact E |].
    rewrite (projectOntoPlane_defined P A B C D N) in Hnone. discriminate. }
  split; intros HD t;
    replace (A * (t * XYZ.x P) + B * (t * XYZ.y P) + C * (t * XYZ.z P))
      with (t * (A * XYZ.x P + B * XYZ.y P + C * XYZ.z P)) by ring;
    rewrite Hden; lra.
Qed.

Lemma projectOntoPlane_parallel_line_witness :
  XYZ.projectOntoPlane (XYZ.mk 1 0 0) 0 1 0 5 = None
  /\ forall t, 0 * (t * XYZ.x (XYZ.mk 1 0 0)) + 1 * (t * XYZ.y (XYZ.mk 1 0 0))
               + 0 * (t * XYZ.z (XYZ.mk 1 0 0)) + 5 <> 0.
Proof.
  assert (Hnone : XYZ.projectOntoPlane (XYZ.mk 1 0 0) 0 1 0 5 = None)
    by (apply projectOntoPlane_undefined; unfold planeDenominator; simpl; lra).
  split; [exact Hnone |].
  apply (proj1 (projectOntoPlane_parallel_line 0 1 0 5 (XYZ.mk 1 0 0) Hnone)).
  lra.
Defined.

(** ** distanceFrom *)

(** X10.  [distanceFrom] is never negative, is symmetric, and is zero
    exactly between equal points. *)
Theorem distanceFrom_metric (p q : XYZ.t) :
  0 <= XYZ.distanceFrom p q
  /\ XYZ.distanceFrom p q = XYZ.distanceFrom q p
  /\ (XYZ.distanceFrom p q = 0 <-> p = q).
Proof.
  split; [apply distanceFrom_nonneg | split; [apply distanceFrom_sym |]].
  split.
  - intros H0. unfold XYZ.distanceFrom in H0.
    destruct p as [px py pz], q as [qx qy qz]. cbn [XYZ.x XYZ.y XYZ.z] in H0.
    unfold double in *.
    pose proof (Rle_0_sqr (px - qx)) as Sx.
    pose proof (Rle_0_sqr (py - qy)) as Sy.
    pose proof (Rle_0_sqr (pz - qz)) as Sz.
    unfold Rsqr in Sx, Sy, Sz.
    apply sqrt_eq_0 in H0; [| lra].
    assert (Ex : (px - qx) * (px - qx) = 0) by lra.
    assert (Ey : (py - qy) * (py - qy) = 0) by lra.
    assert (Ez : (pz - qz) * (pz - qz) = 0) by lra.
    apply Rsqr_0_uniq in Ex, Ey, Ez.
    f_equal; lra.
  - intros ->. apply distanceFrom_self.
Qed.

(** The triangle inequality of the Euclidean norm of three components. *)
Lemma norm3_triangle (u1 u2 u3 v1 v2 v3 : R) :
  sqrt ((u1 + v1) * (u1 + v1) + (u2 + v2) * (u2 + v2) + (u3 + v3) * (u3 + v3))
  <= sqrt (u1 * u1 + u2 * u2 + u3 * u3) + sqrt (v1 * v1 + v2 * v2 + v3 * v3).
Proof.
  set (U := u1 * u1 + u2 * u2 + u3 * u3).
  set (V := v1 * v1 + v2 * v2 + v3 * v3).
  set (d := u1 * v1 + u2 * v2 + u3 * v3).
  assert (HU : 0 <= U) by (unfold U; nra).
  assert (HV : 0 <= V) by (unfold V; nra).
  pose proof (sqrt_pos U) as Ha. pose proof (sqrt_pos V) as Hb.
  pose proof (sqrt_sqrt U HU) as Ha2. pose proof (sqrt_sqrt V HV) as Hb2.
  assert (CS : d * d <= U * V).
  { pose proof (Rle_0_sqr (u1 * v2 - u2 * v1)) as S1.
    pose proof (Rle_0_sqr (u1 * v3 - u3 * v1)) as S2.
    pose proof (Rle_0_sqr (u2 * v3 - u3 * v2)) as S3.
    unfold Rsqr in S1, S2, S3. unfold d, U, V. nra. }
  assert (Hd : d <= sqrt U * sqrt V).
  { destruct (Rle_dec d (sqrt U * sqrt V)) as [L | G]; [exact L | exfalso].
    apply Rnot_le_lt in G.
    assert (0 <= sqrt U * sqrt V) by (apply Rmult_le_pos; assumption).
    assert (sqrt U * sqrt V * (sqrt U * sqrt V) = U * V).
    { replace (sqrt U * sqrt V * (sqrt U * sqrt V))
        with (sqrt U * sqrt U * (sqrt V * sqrt V)) by ring.
      now rewrite Ha2, Hb2. }
    nra. }
  replace ((u1 + v1) * (u1 + v1) + (u2 + v2) * (u2 + v2) + (u3 + v3) * (u3 + v3))
    with (U + V + 2 * d) by (unfold U, V, d; ring).
  rewrite <- (sqrt_square (sqrt U + sqrt V)) by lra.
  apply sqrt_le_1_alt. nra.
Qed.

(** X11.  [distanceFrom] obeys the triangle inequality: going through a
    third point is never shorter. *)
Theorem distanceFrom_triangle (p q r : XYZ.t) :
  XYZ.distanceFrom p r <= XYZ.distanceFrom p q + XYZ.distanceFrom q r.
Proof.
  unfold XYZ.distanceFrom.
  replace (XYZ.x p - XYZ.x r) with ((XYZ.x p - XYZ.x q) + (XYZ.x q - XYZ.x r))
    by ring.
  replace (XYZ.y p - XYZ.y r) with ((XYZ.y p - XYZ.y q) + (XYZ.y q - XYZ.y r))
    by ring.
  replace (XYZ.z p - XYZ.z r) with ((XYZ.z p - XYZ.z q) + (XYZ.z q - XYZ.z r))
    by ring.
  apply norm3_triangle.
Qed.

(** X12.  A point returned by the projection lies at the distance from the
    origin that the scale factor [-D / (A*x + B*y + C*z)] predicts: its
    absolute value times the distance of the point projected. *)
Theorem projectOntoPlane_distance_from_origin
    (A B C D : double) (P Q : XYZ.t) :
  XYZ.projectOntoPlane P A B C D = Some Q ->
  XYZ.distanceFrom Q (XYZ.mk 0 0 0)
  = Rabs (- D / (A * XYZ.x P + B * XYZ.y P + C * XYZ.z P))
    * XYZ.distanceFrom P (XYZ.mk 0 0 0).
Proof.
  intros HQ.
  destruct (projectOntoPlane_result_on_plane _ _ _ _ _ _ HQ) as (N & -> & _).
  unfold planeDenominator in *.
  set (s := - D / (A * XYZ.x P + B * XYZ.y P + C * XYZ.z P)).
  unfold XYZ.distanceFrom. cbn [XYZ.x XYZ.y XYZ.z].
  rewrite <- sqrt_Rsqr_abs, <- sqrt_mult_alt by apply Rle_0_sqr.
  unfold double. f_equal. unfold Rsqr. ring.
Qed.

Lemma projectOntoPlane_distance_from_origin_witness :
  XYZ.projectOntoPlane (XYZ.mk 6 10 (-2)) 0 0 2 2 = Some (XYZ.mk 3 5 (-1))
  /\ XYZ.distanceFrom (XYZ.mk 3 5 (-1)) (XYZ.mk 0 0 0)
     = Rabs (- 2 / (0 * XYZ.x (XYZ.mk 6 10 (-2)) + 0 * XYZ.y (XYZ.mk 6 10 (-2))
                    + 2 * XYZ.z (XYZ.mk 6 10 (-2))))
       * XYZ.distanceFrom (XYZ.mk 6 10 (-2)) (XYZ.mk 0 0 0).
Proof.
  assert (HQ : XYZ.projectOntoPlane (XYZ.mk 6 10 (-2)) 0 0 2 2
               = Some (XYZ.mk 3 5 (-1))).
  { rewrite projectOntoPlane_defined by (unfold planeDenominator; simpl; lra).
    unfold planeDenominator. simpl. f_equal. f_equal; field. }
  split; [exact HQ |].
  exact (projectOntoPlane_distance_from_origin 0 0 2 2 (XYZ.mk 6 10 (-2))
           (XYZ.mk 3 5 (-1)) HQ).
Defined.

(** ** rotationAboutY *)

(** The result of [atan2] lies in (-PI, PI]. *)
Lemma atan2_range (y x : double) : - PI < atan2 y x <= PI.
Proof.
  pose proof PI_RGT_0 as Hpi. unfold atan2.
  destruct (Rlt_dec 0 x) as [Hx | Hx].
  - pose proof (atan_bound (y / x)). lra.
  - destruct (Rlt_dec x 0) as [Hx' | Hx'].
    + pose proof (atan_bound (y / x)) as Hb.
      destruct (Rle_dec 0 y) as [Hy | Hy].
      * assert (Hq : y / x <= 0).
        { unfold Rdiv. assert (/ x < 0) by (apply Rinv_lt_0_compat; exact Hx').
          nra. }
        destruct Hq as [Hq | Hq].
        -- pose proof (atan_increasing _ _ Hq) as Hi. rewrite atan_0 in Hi. lra.
        -- rewrite Hq, atan_0. lra.
      * assert (Hq : 0 < y / x).
        { unfold Rdiv. assert (/ x < 0) by (apply Rinv_lt_0_compat; exact Hx').
          nra. }
        pose proof (atan_increasing _ _ Hq) as Hi. rewrite atan_0 in Hi. lra.
    + destruct (Rlt_dec 0 y); [lra |]. destruct (Rlt_dec y 0); lra.
Qed.

(** [atan2] sees only the direction of its argument pair. *)
Lemma atan2_scale (k y x : double) :
  0 < k -> atan2 (k * y) (k * x) = atan2 y x.
Proof.
  intros Hk. unfold atan2.
  destruct (Rlt_dec 0 x) as [Hx | Hx].
  - destruct (Rlt_dec 0 (k * x)) as [_ | H]; [| nra].
    f_equal. field. lra.
  - destruct (Rlt_dec 0 (k * x)) as [H | _]; [nra |].
    destruct (Rlt_dec x 0) as [Hx' | Hx'].
    + destruct (Rlt_dec (k * x) 0) as [_ | H]; [| nra].
      assert (E : k * y / (k * x) = y / x) by (field; lra). rewrite E.
      destruct (Rle_dec 0 y) as [Hy | Hy].
      * destruct (Rle_dec 0 (k * y)) as [_ | H]; [reflexivity | nra].
      * destruct (Rle_dec 0 (k * y)) as [H | _]; [nra | reflexivity].
    + destruct (Rlt_dec (k * x) 0) as [H | _]; [nra |].
      destruct (Rlt_dec 0 y) as [Hy | Hy].
      * destruct (Rlt_dec 0 (k * y)) as [_ | H]; [reflexivity | nra].
      * destruct (Rlt_dec 0 (k * y)) as [H | _]; [nra |].
        destruct (Rlt_dec y 0) as [Hy' | Hy'].
        -- destruct (Rlt_dec (k * y) 0) as [_ | H]; [reflexivity | nra].
        -- destruct (Rlt_dec (k * y) 0) as [H | _]; [nra | reflexivity].
Qed.

(** Off the negative x axis, [atan2] is odd in its first argument. *)
Lemma atan2_opp (y x : double) :
  ~ (y = 0 /\ x < 0) -> atan2 (- y) x = - atan2 y x.
Proof.
  intros Hcut. unfold atan2.
  destruct (Rlt_dec 0 x) as [Hx | Hx].
  - replace (- y / x) with (- (y / x)) by (field; lra). apply atan_opp.
  - destruct (Rlt_dec x 0) as [Hx' | Hx'].
    + replace (- y / x) with (- (y / x)) by (field; lra). rewrite atan_opp.
      destruct (Rle_dec 0 y) as [Hy | Hy].
      * destruct (Rle_dec 0 (- y)) as [H | _]; [| lra].
        exfalso. apply Hcut. split; lra.
      * destruct (Rle_dec 0 (- y)) as [_ | H]; lra.
    + destruct (Rlt_dec 0 y) as [Hy | Hy].
      * destruct (Rlt_dec 0 (- y)) as [H | _]; [lra |].
        destruct (Rlt_dec (- y) 0) as [_ | H]; lra.
      * destruct (Rlt_dec y 0) as [Hy' | Hy'].
        -- destruct (Rlt_dec 0 (- y)) as [_ | H]; lra.
        -- destruct (Rlt_dec 0 (- y)) as [H | _]; [lra |].
           destruct (Rlt_dec (- y) 0) as [H | _]; lra.
Qed.

(** X13.  [rotationAboutY] recovers the angle of every direction obtained
    by turning the -Z axis by an angle strictly between -PI and PI about Y,
    towards -X for a positive angle, at any distance from the axis and any
    height. *)
Theorem rotationAboutY_recovers_angle (r t h : double) :
  0 < r -> - PI < t < PI ->
  XYZ.rotationAboutY (XYZ.make (- (r * sin t)) h (- (r * cos t))) = t.
Proof.
  intros Hr [Hlo Hhi]. unfold XYZ.rotationAboutY.
  rewrite XYZ_make_in_storage_make. cbn [XYZ.x XYZ.z].
  rewrite !Ropp_involutive. apply atan2_polar; [exact Hr | lra].
Qed.

Lemma rotationAboutY_recovers_angle_witness :
  0 < 2
  /\ - PI < PI / 2 < PI
  /\ XYZ.rotationAboutY
       (XYZ.make (- (2 * sin (PI / 2))) 5 (- (2 * cos (PI / 2)))) = PI / 2.
Proof.
  assert (Hr : 0 < 2) by lra.
  assert (Ht : - PI < PI / 2 < PI) by (pose proof PI_RGT_0; lra).
  split; [exact Hr | split; [exact Ht |]].
  exact (rotationAboutY_recovers_angle 2 (PI / 2) 5 Hr Ht).
Defined.

(** X14.  The rotation about Y is an angle between -PI and PI; it does not
    depend on the height [y] of the point, nor on its distance from the Y
    axis: a positive multiple of [(x, z)] at any height has the same
    rotation. *)
Theorem rotationAboutY_range_and_direction (p : XYZ.t) (k h : double) :
  0 < k ->
  - PI <= XYZ.rotationAboutY p <= PI
  /\ XYZ.rotationAboutY (XYZ.mk (k * XYZ.x p) h (k * XYZ.z p))
     = XYZ.rotationAboutY p.
Proof.
  intros Hk. split.
  { pose proof (atan2_range (- XYZ.x p) (- XYZ.z p)) as Hr.
    unfold XYZ.rotationAboutY. lra. }
  unfold XYZ.rotationAboutY. cbn [XYZ.x XYZ.z].
  replace (- (k * XYZ.x p)) with (k * - XYZ.x p) by ring.
  replace (- (k * XYZ.z p)) with (k * - XYZ.z p) by ring.
  apply atan2_scale, Hk.
Qed.

Lemma rotationAboutY_range_and_direction_witness :
  0 < 3
  /\ - PI <= XYZ.rotationAboutY (XYZ.mk 1 0 (-1)) <= PI
  /\ XYZ.rotationAboutY
       (XYZ.mk (3 * XYZ.x (XYZ.mk 1 0 (-1))) 7 (3 * XYZ.z (XYZ.mk 1 0 (-1))))
     = XYZ.rotationAboutY (XYZ.mk 1 0 (-1)).
Proof.
  assert (Hk : 0 < 3) by lra.
  split; [exact Hk |].
  exact (rotationAboutY_range_and_direction (XYZ.mk 1 0 (-1)) 3 7 Hk).
Defined.

(** X15.  Mirroring a point left to right ([x] to [-x]) negates its rotation
    about Y, for every point that is not straight behind ([x = 0] with
    [z > 0], the cut of [atan2]). *)
Theorem rotationAboutY_mirror (p : XYZ.t) :
  ~ (XYZ.x p = 0 /\ 0 < XYZ.z p) ->
  XYZ.rotationAboutY (XYZ.mk (- XYZ.x p) (XYZ.y p) (XYZ.z p))
  = - XYZ.rotationAboutY p.
Proof.
  unfold XYZ.rotationAboutY. cbn [XYZ.x XYZ.z].
  intros Hcut. apply atan2_opp. intros [Hx Hz]. apply Hcut. split; lra.
Qed.

Lemma rotationAboutY_mirror_witness :
  ~ (XYZ.x (XYZ.mk 1 0 0) = 0 /\ 0 < XYZ.z (XYZ.mk 1 0 0))
  /\ XYZ.rotationAboutY
       (XYZ.mk (- XYZ.x (XYZ.mk 1 0 0)) (XYZ.y (XYZ.mk 1 0 0))
               (XYZ.z (XYZ.mk 1 0 0)))
     = - XYZ.rotationAboutY (XYZ.mk 1 0 0).
Proof.
  assert (Hcut : ~ (XYZ.x (XYZ.mk 1 0 0) = 0 /\ 0 < XYZ.z (XYZ.mk 1 0 0)))
    by (simpl; lra).
  split; [exact Hcut |].
  exact (rotationAboutY_mirror (XYZ.mk 1 0 0) Hcut).
Defined.

(** X16.  Projecting onto a plane on the point's own side of the origin
    (scale factor positive, that is [D] and the denominator of opposite
    signs) does not change the rotation about Y. *)
Theorem projectOntoPlane_keeps_rotation (A B C D : double) (P Q : XYZ.t) :
  XYZ.projectOntoPlane P A B C D = Some Q ->
  D * (A * XYZ.x P + B * XYZ.y P + C * XYZ.z P) < 0 ->
  XYZ.rotationAboutY Q = XYZ.rotationAboutY P.
Proof.
  intros HQ Hside.
  destruct (projectOntoPlane_result_on_plane _ _ _ _ _ _ HQ) as (N & -> & _).
  unfold planeDenominator in *.
  set (den := A * XYZ.x P + B * XYZ.y P + C * XYZ.z P) in *.
  assert (Hs : 0 < - D / den).
  { assert (Hi : 0 < / den * / den).
    { assert (/ den <> 0) by (apply Rinv_neq_0_compat; exact N). nra. }
    replace (- D / den) with (- (D * den) * (/ den * / den)) by (field; exact N).
    apply Rmult_lt_0_compat; lra. }
  unfold XYZ.rotationAboutY. cbn [XYZ.x XYZ.z].
  replace (- (- D / den * XYZ.x P)) with (- D / den * - XYZ.x P) by ring.
  replace (- (- D / den * XYZ.z P)) with (- D / den * - XYZ.z P) by ring.
  apply atan2_scale, Hs.
Qed.

Lemma projectOntoPlane_keeps_rotation_witness :
  XYZ.projectOntoPlane (XYZ.mk 6 10 (-2)) 0 0 2 2 = Some (XYZ.mk 3 5 (-1))
  /\ 2 * (0 * XYZ.x (XYZ.mk 6 10 (-2)) + 0 * XYZ.y (XYZ.mk 6 10 (-2))
          + 2 * XYZ.z (XYZ.mk 6 10 (-2))) < 0
  /\ XYZ.rotationAboutY (XYZ.mk 3 5 (-1))
     = XYZ.rotationAboutY (XYZ.mk 6 10 (-2)).
Proof.
  assert (HQ : XYZ.projectOntoPlane (XYZ.mk 6 10 (-2)) 0 0 2 2
               = Some (XYZ.mk 3 5 (-1))).
  { rewrite projectOntoPlane_defined by (unfold planeDenominator; simpl; lra).
    unfold planeDenominator. simpl. f_equal. f_equal; field. }
  assert (Hside : 2 * (0 * XYZ.x (XYZ.mk 6 10 (-2))
                       + 0 * XYZ.y (XYZ.mk 6 10 (-2))
                       + 2 * XYZ.z (XYZ.mk 6 10 (-2))) < 0) by (simpl; lra).
  split; [exact HQ | split; [exact Hside |]].
  exact (projectOntoPlane_keeps_rotation 0 0 2 2 (XYZ.mk 6 10 (-2))
           (XYZ.mk 3 5 (-1)) HQ Hside).
Defined.

(** ** debugPrint *)

Section DebugPrintFacts.

Variable formatDouble : nat -> double -> String.string.

Lemma string_length_append (a b : String.string) :
  String.length (String.append a b) = (String.length a + String.length b)%nat.
Proof. induction a as [| c a IH]; simpl; [reflexivity | now rewrite IH]. Qed.

Lemma fill_length (n : nat) : String.length (XYZPrint.fill n) = n.
Proof. induction n as [| n IH]; simpl; [reflexivity | now rewrite IH]. Qed.

(** A field set with [std::setw] is as wide as asked, or as the text if
    that is longer. *)
Lemma setw_length (w : nat) (text : String.string) :
  String.length (XYZPrint.setw w text) = Nat.max w (String.length text).
Proof.
  unfold XYZPrint.setw. rewrite string_length_append, fill_length. lia.
Qed.

Lemma debugText_length (p : XYZ.t) :
  String.length (XYZPrint.debugText formatDouble p)
  = (6 + Nat.max 7 (String.length (formatDouble 4%nat (XYZ.x p)))
     + Nat.max 7 (String.length (formatDouble 4%nat (XYZ.y p)))
     + Nat.max 7 (String.length (formatDouble 4%nat (XYZ.z p))))%nat.
Proof.
  unfold XYZPrint.debugText. cbv zeta.
  rewrite !string_length_append, !setw_length.
  change XYZPrint.WIDTH with 7%nat. change XYZPrint.PRECISION with 4%nat.
  simpl String.length. lia.
Qed.

End DebugPrintFacts.

(** X17.  [debugPrint] makes one insertion into the caller's stream, of the
    text assembled in its own string stream.  That text has at least 27
    characters: three right-aligned fields of 7 with their punctuation.  It
    has exactly 27 precisely when each coordinate prints in at most 7
    characters; a longer number widens its field instead of being cut. *)
Theorem debugPrint_width
    (formatDouble : nat -> double -> String.string)
    (ostream : Type) (insertString : ostream -> String.string -> ostream)
    (p : XYZ.t) (os : ostream) :
  let printed v := String.length (formatDouble XYZPrint.PRECISION v) in
  let text := XYZPrint.debugText formatDouble p in
  XYZPrint.debugPrint formatDouble ostream insertString p os
  = insertString os text
  /\ (27 <= String.length text)%nat
  /\ (String.length text = 27%nat
      <-> (printed (XYZ.x p) <= 7 /\ printed (XYZ.y p) <= 7
           /\ printed (XYZ.z p) <= 7)%nat)
  /\ String.length text
     = (6 + Nat.max 7 (printed (XYZ.x p)) + Nat.max 7 (printed (XYZ.y p))
        + Nat.max 7 (printed (XYZ.z p)))%nat.
Proof.
  cbv zeta. split; [reflexivity |].
  rewrite debugText_length.
  change XYZPrint.PRECISION with 4%nat.
  repeat split; lia.
Qed.

(* ================================================================== *)
(** * Properties of the calibration widget *)

Ltac quot_lia := Zify.zify; Z.to_euclidean_division_equations; lia.

Lemma representable_spec (z : Z) :
  Int.representable z = true <-> (Int.INT_MIN <= z <= Int.INT_MAX)%Z.
Proof. unfold Int.representable. rewrite andb_true_iff, !Z.leb_le. tauto. Qed.

Lemma checked_representable (z : Z) :
  (Int.INT_MIN <= z <= Int.INT_MAX)%Z -> Int.checked z = Some z.
Proof.
  intros H. unfold Int.checked.
  now rewrite (proj2 (representable_spec z) H).
Qed.

Lemma checked_Some (z v : Z) :
  Int.checked z = Some v -> v = z /\ (Int.INT_MIN <= z <= Int.INT_MAX)%Z.
Proof.
  unfold Int.checked. destruct (Int.representable z) eqn:E; [| discriminate].
  intros [= <-]. split; [reflexivity | now apply representable_spec].
Qed.

(** The floor of a nonnegative quotient of integers. *)
Lemma Int_part_quotient (a d : Z) :
  (0 <= a)%Z -> (0 < d)%Z -> Int_part (IZR a / IZR d) = (a / d)%Z.
Proof.
  intros Ha Hd. symmetry. apply Int_part_spec.
  assert (Hd' : 0 < IZR d) by (apply IZR_lt; exact Hd).
  pose proof (Z.div_mod a d ltac:(lia)) as Hdm.
  pose proof (Z.mod_pos_bound a d Hd) as [Hm0 Hm1].
  apply (f_equal IZR) in Hdm. rewrite plus_IZR, mult_IZR in Hdm.
  apply IZR_le in Hm0. apply IZR_lt in Hm1.
  assert (E : IZR a / IZR d = IZR (a / d) + IZR (a mod d) / IZR d).
  { rewrite Hdm. field. lra. }
  assert (0 <= IZR (a mod d) / IZR d < 1).
  { split.
    - apply Rmult_le_pos; [exact Hm0 | left; now apply Rinv_0_lt_compat].
    - apply (Rmult_lt_reg_r (IZR d)); [exact Hd' |].
      unfold Rdiv. rewrite Rmult_assoc, Rinv_l by lra. lra. }
  lra.
Qed.

(** Converting the double quotient of an int by a positive int constant
    back to int gives the int quotient, truncated towards zero. *)
Lemma truncate_quotient (a d : Z) :
  (0 < d)%Z -> Int.truncate (IZR a / IZR d) = Z.quot a d.
Proof.
  intros Hd. unfold Int.truncate.
  assert (Hd' : 0 < IZR d) by (apply IZR_lt; exact Hd).
  destruct (Rle_dec 0 (IZR a / IZR d)) as [Hq | Hq].
  - assert (Ha : (0 <= a)%Z).
    { apply le_IZR. apply (Rmult_le_reg_r (/ IZR d)).
      - now apply Rinv_0_lt_compat.
      - rewrite Rmult_0_l. exact Hq. }
    rewrite Int_part_quotient by assumption.
    symmetry. apply Z.quot_div_nonneg; assumption.
  - assert (Ha : (a < 0)%Z).
    { apply Z.lt_nge. intros Ha. apply Hq.
      apply Rmult_le_pos; [now apply IZR_le | left; now apply Rinv_0_lt_compat]. }
    replace (- (IZR a / IZR d)) with (IZR (- a) / IZR d)
      by (rewrite opp_IZR; field; lra).
    rewrite Int_part_quotient by lia.
    rewrite <- Z.quot_div_nonneg by lia.
    rewrite Z.quot_opp_l by lia. lia.
Qed.

Lemma of_double_quotient (a d : Z) :
  (0 < d)%Z -> (Int.INT_MIN <= a <= Int.INT_MAX)%Z ->
  Int.of_double (IZR a / IZR d) = Some (Z.quot a d).
Proof.
  intros Hd Ha. unfold Int.of_double. rewrite truncate_quotient by exact Hd.
  apply checked_representable.
  assert (Hb : (Z.abs (Z.quot a d) <= Z.abs a)%Z).
  { rewrite <- (Z.quot_abs a d) by lia.
    rewrite Z.quot_div_nonneg by lia.
    apply Z.div_le_upper_bound; [lia |].
    assert (Hd1 : (1 <= Z.abs d)%Z) by lia.
    assert (Ha0 : (0 <= Z.abs a)%Z) by lia.
    generalize dependent (Z.abs d). generalize dependent (Z.abs a).
    intros; nia. }
  assert (Hs : (0 <= a -> 0 <= Z.quot a d)%Z)
    by (intros; apply Z.quot_pos; lia).
  assert (Hn : (a <= 0 -> Z.quot a d <= 0)%Z).
  { intros Hle. pose proof (Z.quot_pos (- a) d ltac:(lia) Hd) as Hp.
    rewrite Z.quot_opp_l in Hp by lia. lia. }
  unfold Int.INT_MIN, Int.INT_MAX in *. lia.
Qed.

(** The guard of [resizeGL] keeps the divisor of [aspect] away from zero. *)
Lemma aspect_defined (width height : Z) :
  exists a, OpenGL_Widget.aspect width height = Some a.
Proof.
  unfold OpenGL_Widget.aspect.
  destruct ((height <=? 0)%Z || (width <? 0)%Z) eqn:G; [now exists 1 |].
  apply orb_false_iff in G as [Gh _]. apply Z.leb_gt in Gh.
  eexists. apply fdiv_defined. unfold Int.to_double.
  apply not_0_IZR. lia.
Qed.

(** What [resizeGL] returns for a size above [INT_MIN]. *)
Lemma resizeGL_value (width height : Z) (w : OpenGL_Widget.t) :
  (Int.INT_MIN < width <= Int.INT_MAX)%Z ->
  (Int.INT_MIN < height <= Int.INT_MAX)%Z ->
  OpenGL_Widget.resizeGL width height w
  = Some (OpenGL_Widget.mk
            (QPoint.mk (Z.quot width 4) (Z.quot height 2)) width height,
          [ OpenGL_Widget.glViewport 0 0 width height;
            OpenGL_Widget.glMatrixMode OpenGL_Widget.GL_PROJECTION;
            OpenGL_Widget.glLoadIdentity;
            OpenGL_Widget.glOrtho 0 (width - 1) 0 (height - 1) 5 15;
            OpenGL_Widget.glMatrixMode OpenGL_Widget.GL_MODELVIEW ]).
Proof.
  intros Hw Hh. unfold OpenGL_Widget.resizeGL.
  destruct (aspect_defined width height) as [a ->].
  cbn [bind OpenGL_Widget.d_width OpenGL_Widget.d_height OpenGL_Widget.d_cop].
  unfold Int.sub.
  rewrite !checked_representable by (unfold Int.INT_MIN, Int.INT_MAX in *; lia).
  cbn [bind].
  rewrite (fdiv_defined (Int.to_double width) 4) by lra.
  cbn [bind]. unfold Int.to_double.
  rewrite (of_double_quotient width 4) by lia.
  cbn [bind OpenGL_Widget.set_cop OpenGL_Widget.d_width OpenGL_Widget.d_height
       OpenGL_Widget.d_cop].
  rewrite (fdiv_defined (IZR height) 2) by lra.
  cbn [bind].
  rewrite (of_double_quotient height 2) by lia.
  reflexivity.
Qed.

(** X19.  [resizeGL], for every size above [INT_MIN] (a height of zero
    included: the guarded aspect division never meets a zero divisor),
    stores the size and resets the centre of projection to the centre of the
    left half of the window, [(width / 4, height / 2)] cut towards zero,
    whatever the widget held before. *)
Theorem resizeGL_resets_cop (width height : Z) (w : OpenGL_Widget.t) :
  (Int.INT_MIN < width <= Int.INT_MAX)%Z ->
  (Int.INT_MIN < height <= Int.INT_MAX)%Z ->
  exists calls,
    OpenGL_Widget.resizeGL width height w
    = Some (OpenGL_Widget.mk
              (QPoint.mk (Z.quot width 4) (Z.quot height 2)) width height,
            calls).
Proof.
  intros Hw Hh. eexists. apply resizeGL_value; assumption.
Qed.

Lemma resizeGL_resets_cop_witness :
  (Int.INT_MIN < 800 <= Int.INT_MAX)%Z
  /\ (Int.INT_MIN < 0 <= Int.INT_MAX)%Z
  /\ exists calls,
       OpenGL_Widget.resizeGL 800 0
         (OpenGL_Widget.mk (QPoint.mk 7 9) 3 5)
       = Some (OpenGL_Widget.mk
                 (QPoint.mk (Z.quot 800 4) (Z.quot 0 2)) 800 0, calls).
Proof.
  assert (Hw : (Int.INT_MIN < 800 <= Int.INT_MAX)%Z) by (vm_compute; split; congruence).
  assert (Hh : (Int.INT_MIN < 0 <= Int.INT_MAX)%Z) by (vm_compute; split; congruence).
  split; [exact Hw | split; [exact Hh |]].
  exact (resizeGL_resets_cop 800 0 (OpenGL_Widget.mk (QPoint.mk 7 9) 3 5) Hw Hh).
Defined.

(** X20.  After [resizeGL] with a width of at least 2 the centre of
    projection lies in the left half of the window, where a click is
    accepted, and its mirror image [d_width - x] lies right of the middle,
    inside the window. *)
Theorem resizeGL_cop_in_left_half
    (width height : Z) (w w' : OpenGL_Widget.t) (calls : list OpenGL_Widget.Call) :
  (2 <= width <= Int.INT_MAX)%Z ->
  (Int.INT_MIN < height <= Int.INT_MAX)%Z ->
  OpenGL_Widget.resizeGL width height w = Some (w', calls) ->
  OpenGL_Widget.copInLeftHalf w'
  /\ (Z.quot (OpenGL_Widget.d_width w') 2
      < OpenGL_Widget.d_width w' - QPoint.x (OpenGL_Widget.d_cop w')
      <= OpenGL_Widget.d_width w')%Z.
Proof.
  intros Hw Hh Hrun.
  rewrite resizeGL_value in Hrun
    by (unfold Int.INT_MIN, Int.INT_MAX in *; lia).
  injection Hrun as <- _. unfold OpenGL_Widget.copInLeftHalf.
  cbn [OpenGL_Widget.d_cop OpenGL_Widget.d_width QPoint.x].
  quot_lia.
Qed.

Lemma resizeGL_cop_in_left_half_witness :
  (2 <= 801 <= Int.INT_MAX)%Z
  /\ (Int.INT_MIN < 600 <= Int.INT_MAX)%Z
  /\ OpenGL_Widget.resizeGL 801 600 (OpenGL_Widget.mk (QPoint.mk 0 0) 0 0)
     = Some (OpenGL_Widget.mk (QPoint.mk 200 300) 801 600,
             [ OpenGL_Widget.glViewport 0 0 801 600;
               OpenGL_Widget.glMatrixMode OpenGL_Widget.GL_PROJECTION;
               OpenGL_Widget.glLoadIdentity;
               OpenGL_Widget.glOrtho 0 800 0 599 5 15;
               OpenGL_Widget.glMatrixMode OpenGL_Widget.GL_MODELVIEW ])
  /\ OpenGL_Widget.copInLeftHalf (OpenGL_Widget.mk (QPoint.mk 200 300) 801 600)
  /\ (Z.quot 801 2 < 801 - 200 <= 801)%Z.
Proof.
  assert (Hw : (2 <= 801 <= Int.INT_MAX)%Z) by (vm_compute; split; congruence).
  assert (Hh : (Int.INT_MIN < 600 <= Int.INT_MAX)%Z)
    by (vm_compute; split; congruence).
  assert (Hrun : OpenGL_Widget.resizeGL 801 600
                   (OpenGL_Widget.mk (QPoint.mk 0 0) 0 0)
                 = Some (OpenGL_Widget.mk (QPoint.mk 200 300) 801 600,
                         [ OpenGL_Widget.glViewport 0 0 801 600;
                           OpenGL_Widget.glMatrixMode OpenGL_Widget.GL_PROJECTION;
                           OpenGL_Widget.glLoadIdentity;
                           OpenGL_Widget.glOrtho 0 800 0 599 5 15;
                           OpenGL_Widget.glMatrixMode OpenGL_Widget.GL_MODELVIEW ])).
  { rewrite resizeGL_value by (vm_compute; split; congruence). reflexivity. }
  split; [exact Hw | split; [exact Hh | split; [exact Hrun |]]].
  exact (resizeGL_cop_in_left_half 801 600 _ _ _ Hw Hh Hrun).
Defined.

(** *** Mouse *)

Lemma Int_div_Some (a d v : Z) :
  Int.div a d = Some v -> d <> 0%Z /\ v = Z.quot a d.
Proof.
  unfold Int.div. destruct (d =? 0)%Z eqn:E; [discriminate |].
  intros Hc. apply checked_Some in Hc as [-> _].
  split; [now apply Z.eqb_neq | reflexivity].
Qed.

(** What a mouse press does, when it is defined. *)
Lemma mousePressEvent_cases
    (pos : QPoint.t) (w w' : OpenGL_Widget.t) (calls : list OpenGL_Widget.Call) :
  OpenGL_Widget.mousePressEvent pos w = Some (w', calls) ->
  calls = [OpenGL_Widget.updateGL]
  /\ ((QPoint.x pos < Z.quot (OpenGL_Widget.d_width w) 2)%Z
      /\ w' = OpenGL_Widget.mk
                (QPoint.mk (QPoint.x pos)
                           (OpenGL_Widget.d_height w - QPoint.y pos))
                (OpenGL_Widget.d_width w) (OpenGL_Widget.d_height w)
      \/ (Z.quot (OpenGL_Widget.d_width w) 2 <= QPoint.x pos)%Z /\ w' = w).
Proof.
  unfold OpenGL_Widget.mousePressEvent.
  destruct (Int.div (OpenGL_Widget.d_width w) 2) as [half |] eqn:Hhalf;
    [| discriminate].
  apply Int_div_Some in Hhalf as [_ ->]. cbn [bind].
  destruct (QPoint.x pos <? Z.quot (OpenGL_Widget.d_width w) 2)%Z eqn:Hlt.
  - cbn [OpenGL_Widget.set_cop OpenGL_Widget.d_height OpenGL_Widget.d_cop
         OpenGL_Widget.d_width].
    unfold Int.sub.
    destruct (Int.checked (OpenGL_Widget.d_height w - QPoint.y pos))
      as [v |] eqn:Hv; [| discriminate].
    apply checked_Some in Hv as [-> _]. cbn [bind].
    intros [= <- <-]. split; [reflexivity | left].
    split; [now apply Z.ltb_lt | reflexivity].
  - cbn [bind]. intros [= <- <-]. split; [reflexivity | right].
    split; [now apply Z.ltb_ge | reflexivity].
Qed.

(** X21.  Clicks never move the centre of projection out of the left half
    of the window: through any sequence of mouse presses a centre that lies
    in the left half stays there, the window size is untouched, and every
    press, accepted or not, requests exactly one repaint. *)
Theorem mousePress_keeps_left_half
    (clicks : list QPoint.t) (w w' : OpenGL_Widget.t)
    (calls : list OpenGL_Widget.Call) :
  OpenGL_Widget.copInLeftHalf w ->
  OpenGL_Widget.run (map OpenGL_Widget.MousePress clicks) w = Some (w', calls) ->
  OpenGL_Widget.copInLeftHalf w'
  /\ OpenGL_Widget.d_width w' = OpenGL_Widget.d_width w
  /\ OpenGL_Widget.d_height w' = OpenGL_Widget.d_height w
  /\ calls = repeat OpenGL_Widget.updateGL (length clicks).
Proof.
  revert w w' calls.
  induction clicks as [| pos rest IH]; intros w w' calls Hinv Hrun.
  - simpl in Hrun. injection Hrun as <- <-. repeat split; assumption.
  - simpl in Hrun.
    destruct (OpenGL_Widget.mousePressEvent pos w) as [[w1 c1] |] eqn:H1;
      [| discriminate].
    cbn [bind fst snd] in Hrun.
    destruct (OpenGL_Widget.run (map OpenGL_Widget.MousePress rest) w1)
      as [[w2 c2] |] eqn:H2; [| discriminate].
    cbn [bind fst snd] in Hrun. injection Hrun as <- <-.
    apply mousePressEvent_cases in H1 as [-> Hcase].
    assert (Hinv1 : OpenGL_Widget.copInLeftHalf w1
                    /\ OpenGL_Widget.d_width w1 = OpenGL_Widget.d_width w
                    /\ OpenGL_Widget.d_height w1 = OpenGL_Widget.d_height w).
    { destruct Hcase as [[Hlt ->] | [_ ->]].
      - unfold OpenGL_Widget.copInLeftHalf. cbn. auto.
      - auto. }
    destruct Hinv1 as (Hl1 & Hw1 & Hh1).
    destruct (IH w1 w2 c2 Hl1 H2) as (Hl2 & Hw2 & Hh2 & ->).
    repeat split; (assumption || congruence).
Qed.

Lemma mousePress_keeps_left_half_witness :
  OpenGL_Widget.copInLeftHalf (OpenGL_Widget.mk (QPoint.mk 200 300) 800 600)
  /\ OpenGL_Widget.run
       (map OpenGL_Widget.MousePress [QPoint.mk 100 50; QPoint.mk 700 10])
       (OpenGL_Widget.mk (QPoint.mk 200 300) 800 600)
     = Some (OpenGL_Widget.mk (QPoint.mk 100 550) 800 600,
             [OpenGL_Widget.updateGL; OpenGL_Widget.updateGL])
  /\ OpenGL_Widget.copInLeftHalf (OpenGL_Widget.mk (QPoint.mk 100 550) 800 600)
  /\ OpenGL_Widget.d_width (OpenGL_Widget.mk (QPoint.mk 100 550) 800 600)
     = OpenGL_Widget.d_width (OpenGL_Widget.mk (QPoint.mk 200 300) 800 600)
  /\ OpenGL_Widget.d_height (OpenGL_Widget.mk (QPoint.mk 100 550) 800 600)
     = OpenGL_Widget.d_height (OpenGL_Widget.mk (QPoint.mk 200 300) 800 600)
  /\ [OpenGL_Widget.updateGL; OpenGL_Widget.updateGL]
     = repeat OpenGL_Widget.updateGL
         (length [QPoint.mk 100 50; QPoint.mk 700 10]).
Proof.
  assert (Hinv : OpenGL_Widget.copInLeftHalf
                   (OpenGL_Widget.mk (QPoint.mk 200 300) 800 600))
    by (vm_compute; reflexivity).
  assert (Hrun : OpenGL_Widget.run
                   (map OpenGL_Widget.MousePress
                        [QPoint.mk 100 50; QPoint.mk 700 10])
                   (OpenGL_Widget.mk (QPoint.mk 200 300) 800 600)
                 = Some (OpenGL_Widget.mk (QPoint.mk 100 550) 800 600,
                         [OpenGL_Widget.updateGL; OpenGL_Widget.updateGL]))
    by (vm_compute; reflexivity).
  split; [exact Hinv | split; [exact Hrun |]].
  exact (mousePress_keeps_left_half _ _ _ _ Hinv Hrun).
Defined.

(** X22.  An accepted click sets the centre of projection to the click with
    its [y] counted from the bottom of the window, [d_height - y], whatever
    the centre was; clicking at the coordinates of that centre brings back
    the clicked position: the flip undoes itself. *)
Theorem mousePress_flip_involution
    (pos : QPoint.t) (w w' : OpenGL_Widget.t) (calls : list OpenGL_Widget.Call) :
  (QPoint.x pos < Z.quot (OpenGL_Widget.d_width w) 2)%Z ->
  (Int.INT_MIN <= QPoint.y pos <= Int.INT_MAX)%Z ->
  OpenGL_Widget.mousePressEvent pos w = Some (w', calls) ->
  OpenGL_Widget.d_cop w'
  = QPoint.mk (QPoint.x pos) (OpenGL_Widget.d_height w - QPoint.y pos)
  /\ OpenGL_Widget.mousePressEvent (OpenGL_Widget.d_cop w') w'
     = Some (OpenGL_Widget.set_cop pos w', [OpenGL_Widget.updateGL]).
Proof.
  intros Hlt Hy Hrun.
  assert (Hhalf : Int.div (OpenGL_Widget.d_width w) 2
                  = Some (Z.quot (OpenGL_Widget.d_width w) 2)).
  { unfold OpenGL_Widget.mousePressEvent in Hrun.
    destruct (Int.div (OpenGL_Widget.d_width w) 2) as [half |] eqn:Hh;
      [| discriminate].
    apply Int_div_Some in Hh as [_ ->]. reflexivity. }
  apply mousePressEvent_cases in Hrun as [_ [[_ ->] | [Hge _]]]; [| lia].
  split; [reflexivity |].
  unfold OpenGL_Widget.mousePressEvent.
  cbn [OpenGL_Widget.d_width OpenGL_Widget.d_cop OpenGL_Widget.d_height
       OpenGL_Widget.set_cop QPoint.x QPoint.y].
  rewrite Hhalf. cbn [bind].
  rewrite (proj2 (Z.ltb_lt _ _) Hlt).
  unfold Int.sub.
  replace (OpenGL_Widget.d_height w - (OpenGL_Widget.d_height w - QPoint.y pos))%Z
    with (QPoint.y pos) by lia.
  rewrite checked_representable by exact Hy.
  destruct pos as [px py]. reflexivity.
Qed.

Lemma mousePress_flip_involution_witness :
  (QPoint.x (QPoint.mk 100 50)
   < Z.quot (OpenGL_Widget.d_width
               (OpenGL_Widget.mk (QPoint.mk 200 300) 800 600)) 2)%Z
  /\ (Int.INT_MIN <= QPoint.y (QPoint.mk 100 50) <= Int.INT_MAX)%Z
  /\ OpenGL_Widget.mousePressEvent (QPoint.mk 100 50)
       (OpenGL_Widget.mk (QPoint.mk 200 300) 800 600)
     = Some (OpenGL_Widget.mk (QPoint.mk 100 550) 800 600,
             [OpenGL_Widget.updateGL])
  /\ OpenGL_Widget.d_cop (OpenGL_Widget.mk (QPoint.mk 100 550) 800 600)
     = QPoint.mk 100 (600 - 50)
  /\ OpenGL_Widget.mousePressEvent (QPoint.mk 100 550)
       (OpenGL_Widget.mk (QPoint.mk 100 550) 800 600)
     = Some (OpenGL_Widget.mk (QPoint.mk 100 50) 800 600,
             [OpenGL_Widget.updateGL]).
Proof.
  assert (Hlt : (QPoint.x (QPoint.mk 100 50)
                 < Z.quot (OpenGL_Widget.d_width
                             (OpenGL_Widget.mk (QPoint.mk 200 300) 800 600)) 2)%Z)
    by (vm_compute; reflexivity).
  assert (Hy : (Int.INT_MIN <= QPoint.y (QPoint.mk 100 50) <= Int.INT_MAX)%Z)
    by (vm_compute; split; congruence).
  assert (Hrun : OpenGL_Widget.mousePressEvent (QPoint.mk 100 50)
                   (OpenGL_Widget.mk (QPoint.mk 200 300) 800 600)
                 = Some (OpenGL_Widget.mk (QPoint.mk 100 550) 800 600,
                         [OpenGL_Widget.updateGL]))
    by (vm_compute; reflexivity).
  split; [exact Hlt | split; [exact Hy | split; [exact Hrun |]]].
  exact (mousePress_flip_involution _ _ _ _ Hlt Hy Hrun).
Defined.

(** *** Keys *)

(** The four arrow keys, branch by branch. *)
Lemma keyPressEvent_Left (w : OpenGL_Widget.t) :
  OpenGL_Widget.keyPressEvent Qt.Key_Left w
  = (v <- Int.sub (QPoint.x (OpenGL_Widget.d_cop w)) 1 ;;
     Some (OpenGL_Widget.set_cop (QPoint.setX v (OpenGL_Widget.d_cop w)) w,
           [OpenGL_Widget.printf_key Qt.Key_Left; OpenGL_Widget.updateGL])).
Proof.
  unfold OpenGL_Widget.keyPressEvent.
  change (Qt.Key_Left =? Qt.Key_Left)%Z with true. cbv iota.
  destruct (Int.sub _ _); reflexivity.
Qed.

Lemma keyPressEvent_Right (w : OpenGL_Widget.t) :
  OpenGL_Widget.keyPressEvent Qt.Key_Right w
  = (v <- Int.add (QPoint.x (OpenGL_Widget.d_cop w)) 1 ;;
     Some (OpenGL_Widget.set_cop (QPoint.setX v (OpenGL_Widget.d_cop w)) w,
           [OpenGL_Widget.printf_key Qt.Key_Right; OpenGL_Widget.updateGL])).
Proof.
  unfold OpenGL_Widget.keyPressEvent.
  change (Qt.Key_Right =? Qt.Key_Left)%Z with false.
  change (Qt.Key_Right =? Qt.Key_Right)%Z with true. cbv iota.
  destruct (Int.add _ _); reflexivity.
Qed.

Lemma keyPressEvent_Down (w : OpenGL_Widget.t) :
  OpenGL_Widget.keyPressEvent Qt.Key_Down w
  = (v <- Int.sub (QPoint.y (OpenGL_Widget.d_cop w)) 1 ;;
     Some (OpenGL_Widget.set_cop (QPoint.setY v (OpenGL_Widget.d_cop w)) w,
           [OpenGL_Widget.printf_key Qt.Key_Down; OpenGL_Widget.updateGL])).
Proof.
  unfold OpenGL_Widget.keyPressEvent.
  change (Qt.Key_Down =? Qt.Key_Left)%Z with false.
  change (Qt.Key_Down =? Qt.Key_Right)%Z with false.
  change (Qt.Key_Down =? Qt.Key_Down)%Z with true. cbv iota.
  destruct (Int.sub _ _); reflexivity.
Qed.

Lemma keyPressEvent_Up (w : OpenGL_Widget.t) :
  OpenGL_Widget.keyPressEvent Qt.Key_Up w
  = (v <- Int.add (QPoint.y (OpenGL_Widget.d_cop w)) 1 ;;
     Some (OpenGL_Widget.set_cop (QPoint.setY v (OpenGL_Widget.d_cop w)) w,
           [OpenGL_Widget.printf_key Qt.Key_Up; OpenGL_Widget.updateGL])).
Proof.
  unfold OpenGL_Widget.keyPressEvent.
  change (Qt.Key_Up =? Qt.Key_Left)%Z with false.
  change (Qt.Key_Up =? Qt.Key_Right)%Z with false.
  change (Qt.Key_Up =? Qt.Key_Down)%Z with false.
  change (Qt.Key_Up =? Qt.Key_Up)%Z with true. cbv iota.
  destruct (Int.add _ _); reflexivity.
Qed.

(** What a key press does, when it is defined. *)
Lemma keyPressEvent_cases
    (key : Z) (w w' : OpenGL_Widget.t) (calls : list OpenGL_Widget.Call) :
  OpenGL_Widget.keyPressEvent key w = Some (w', calls) ->
  calls = [OpenGL_Widget.printf_key key; OpenGL_Widget.updateGL]
  /\ OpenGL_Widget.d_width w' = OpenGL_Widget.d_width w
  /\ OpenGL_Widget.d_height w' = OpenGL_Widget.d_height w
  /\ (QPoint.x (OpenGL_Widget.d_cop w')
      = QPoint.x (OpenGL_Widget.d_cop w)
        + (if key =? Qt.Key_Left then - 1
           else if key =? Qt.Key_Right then 1 else 0))%Z
  /\ (QPoint.y (OpenGL_Widget.d_cop w')
      = QPoint.y (OpenGL_Widget.d_cop w)
        + (if key =? Qt.Key_Left then 0
           else if key =? Qt.Key_Right then 0
           else if key =? Qt.Key_Down then - 1
           else if key =? Qt.Key_Up then 1 else 0))%Z.
Proof.
  unfold OpenGL_Widget.keyPressEvent, Int.sub, Int.add.
  destruct (key =? Qt.Key_Left)%Z;
    [| destruct (key =? Qt.Key_Right)%Z;
       [| destruct (key =? Qt.Key_Down)%Z;
          [| destruct (key =? Qt.Key_Up)%Z]]].
  1-4: match goal with
       | |- context [Int.checked ?e] =>
           destruct (Int.checked e) as [v |] eqn:Hv; [| discriminate];
           apply checked_Some in Hv as [-> _]
       end;
       cbn [bind]; intros [= <- <-]; cbn; repeat split; lia.
  cbn [bind]. intros [= <- <-]. repeat split; lia.
Qed.

(** X23.  A key press prints the key code and requests one repaint, never
    touches the window size, and moves the centre of projection by one
    pixel along one axis for an arrow key; any other key leaves the widget
    as it was. *)
Theorem keyPressEvent_effect
    (key : Z) (w w' : OpenGL_Widget.t) (calls : list OpenGL_Widget.Call) :
  OpenGL_Widget.keyPressEvent key w = Some (w', calls) ->
  calls = [OpenGL_Widget.printf_key key; OpenGL_Widget.updateGL]
  /\ OpenGL_Widget.d_width w' = OpenGL_Widget.d_width w
  /\ OpenGL_Widget.d_height w' = OpenGL_Widget.d_height w
  /\ (Z.abs (QPoint.x (OpenGL_Widget.d_cop w') - QPoint.x (OpenGL_Widget.d_cop w))
      + Z.abs (QPoint.y (OpenGL_Widget.d_cop w') - QPoint.y (OpenGL_Widget.d_cop w))
      <= 1)%Z
  /\ (key <> Qt.Key_Left -> key <> Qt.Key_Right ->
      key <> Qt.Key_Down -> key <> Qt.Key_Up -> w' = w).
Proof.
  intros Hrun.
  destruct (keyPressEvent_cases _ _ _ _ Hrun) as (Hc & Hw & Hh & Hx & Hy).
  split; [exact Hc | split; [exact Hw | split; [exact Hh | split]]].
  - rewrite Hx, Hy.
    destruct (key =? Qt.Key_Left)%Z; [lia |].
    destruct (key =? Qt.Key_Right)%Z; [lia |].
    destruct (key =? Qt.Key_Down)%Z; [lia |].
    destruct (key =? Qt.Key_Up)%Z; lia.
  - intros Hl Hr Hd Hu.
    apply Z.eqb_neq in Hl, Hr, Hd, Hu.
    rewrite Hl, Hr in Hx. rewrite Hl, Hr, Hd, Hu in Hy.
    destruct w as [[cx cy] ww hh], w' as [[cx' cy'] ww' hh']. cbn in *.
    assert (cx' = cx) by lia. assert (cy' = cy) by lia. rewrite H, H0, Hw, Hh. reflexivity.
Qed.

Lemma keyPressEvent_effect_witness :
  OpenGL_Widget.keyPressEvent Qt.Key_Up
    (OpenGL_Widget.mk (QPoint.mk 200 300) 800 600)
  = Some (OpenGL_Widget.mk (QPoint.mk 200 301) 800 600,
          [OpenGL_Widget.printf_key Qt.Key_Up; OpenGL_Widget.updateGL])
  /\ [OpenGL_Widget.printf_key Qt.Key_Up; OpenGL_Widget.updateGL]
     = [OpenGL_Widget.printf_key Qt.Key_Up; OpenGL_Widget.updateGL]
  /\ OpenGL_Widget.d_width (OpenGL_Widget.mk (QPoint.mk 200 301) 800 600)
     = OpenGL_Widget.d_width (OpenGL_Widget.mk (QPoint.mk 200 300) 800 600).
Proof.
  assert (Hrun : OpenGL_Widget.keyPressEvent Qt.Key_Up
                   (OpenGL_Widget.mk (QPoint.mk 200 300) 800 600)
                 = Some (OpenGL_Widget.mk (QPoint.mk 200 301) 800 600,
                         [OpenGL_Widget.printf_key Qt.Key_Up;
                          OpenGL_Widget.updateGL]))
    by (vm_compute; reflexivity).
  split; [exact Hrun |].
  destruct (keyPressEvent_effect _ _ _ _ Hrun) as (Hc & Hw & _).
  split; [exact Hc | exact Hw].
Defined.

(** X24.  Opposite arrow keys undo each other: after a defined [Key_Left]
    a [Key_Right] gives back the widget as it was, and likewise [Key_Up]
    after [Key_Down]. *)
Theorem keyPressEvent_opposite_keys
    (w w' : OpenGL_Widget.t) (calls : list OpenGL_Widget.Call) :
  (Int.INT_MIN <= QPoint.x (OpenGL_Widget.d_cop w) <= Int.INT_MAX)%Z ->
  (Int.INT_MIN <= QPoint.y (OpenGL_Widget.d_cop w) <= Int.INT_MAX)%Z ->
  (OpenGL_Widget.keyPressEvent Qt.Key_Left w = Some (w', calls) ->
   OpenGL_Widget.keyPressEvent Qt.Key_Right w'
   = Some (w, [OpenGL_Widget.printf_key Qt.Key_Right; OpenGL_Widget.updateGL]))
  /\ (OpenGL_Widget.keyPressEvent Qt.Key_Down w = Some (w', calls) ->
      OpenGL_Widget.keyPressEvent Qt.Key_Up w'
      = Some (w, [OpenGL_Widget.printf_key Qt.Key_Up; OpenGL_Widget.updateGL])).
Proof.
  intros Hx Hy. destruct w as [[cx cy] ww hh]. cbn in Hx, Hy. split.
  - rewrite keyPressEvent_Left. unfold Int.sub.
    cbn [OpenGL_Widget.d_cop QPoint.x].
    destruct (Int.checked (cx - 1)) as [v |] eqn:Hv; [| discriminate].
    apply checked_Some in Hv as [-> _]. cbn [bind]. intros [= <- _].
    rewrite keyPressEvent_Right. unfold Int.add. cbn.
    replace (cx - 1 + 1)%Z with cx by lia.
    rewrite checked_representable by exact Hx. reflexivity.
  - rewrite keyPressEvent_Down. unfold Int.sub.
    cbn [OpenGL_Widget.d_cop QPoint.y].
    destruct (Int.checked (cy - 1)) as [v |] eqn:Hv; [| discriminate].
    apply checked_Some in Hv as [-> _]. cbn [bind]. intros [= <- _].
    rewrite keyPressEvent_Up. unfold Int.add. cbn.
    replace (cy - 1 + 1)%Z with cy by lia.
    rewrite checked_representable by exact Hy. reflexivity.
Qed.

Lemma keyPressEvent_opposite_keys_witness :
  (Int.INT_MIN <= 200 <= Int.INT_MAX)%Z
  /\ (Int.INT_MIN <= 300 <= Int.INT_MAX)%Z
  /\ OpenGL_Widget.keyPressEvent Qt.Key_Left
       (OpenGL_Widget.mk (QPoint.mk 200 300) 800 600)
     = Some (OpenGL_Widget.mk (QPoint.mk 199 300) 800 600,
             [OpenGL_Widget.printf_key Qt.Key_Left; OpenGL_Widget.updateGL])
  /\ OpenGL_Widget.keyPressEvent Qt.Key_Right
       (OpenGL_Widget.mk (QPoint.mk 199 300) 800 600)
     = Some (OpenGL_Widget.mk (QPoint.mk 200 300) 800 600,
             [OpenGL_Widget.printf_key Qt.Key_Right; OpenGL_Widget.updateGL]).
Proof.
  assert (Hx : (Int.INT_MIN <= 200 <= Int.INT_MAX)%Z)
    by (vm_compute; split; congruence).
  assert (Hy : (Int.INT_MIN <= 300 <= Int.INT_MAX)%Z)
    by (vm_compute; split; congruence).
  assert (Hrun : OpenGL_Widget.keyPressEvent Qt.Key_Left
                   (OpenGL_Widget.mk (QPoint.mk 200 300) 800 600)
                 = Some (OpenGL_Widget.mk (QPoint.mk 199 300) 800 600,
                         [OpenGL_Widget.printf_key Qt.Key_Left;
                          OpenGL_Widget.updateGL]))
    by (vm_compute; reflexivity).
  split; [exact Hx | split; [exact Hy | split; [exact Hrun |]]].
  exact (proj1 (keyPressEvent_opposite_keys
                  (OpenGL_Widget.mk (QPoint.mk 200 300) 800 600) _ _ Hx Hy)
               Hrun).
Defined.

(** X25.  Arrow keys are not clamped to the window: [n] presses of
    [Key_Right] move the centre of projection [n] pixels to the right,
    whatever the window width, as long as the coordinate stays an int. *)
Theorem keyPressEvent_repeat_right (n : nat) (w : OpenGL_Widget.t) :
  (Int.INT_MIN <= QPoint.x (OpenGL_Widget.d_cop w))%Z ->
  (QPoint.x (OpenGL_Widget.d_cop w) + Z.of_nat n <= Int.INT_MAX)%Z ->
  exists calls,
    OpenGL_Widget.run (repeat (OpenGL_Widget.KeyPress Qt.Key_Right) n) w
    = Some (OpenGL_Widget.mk
              (QPoint.mk (QPoint.x (OpenGL_Widget.d_cop w) + Z.of_nat n)
                         (QPoint.y (OpenGL_Widget.d_cop w)))
              (OpenGL_Widget.d_width w) (OpenGL_Widget.d_height w),
            calls)
    /\ length calls = (2 * n)%nat.
Proof.
  revert w. induction n as [| n IH]; intros w Hlo Hhi.
  - exists []. destruct w as [[cx cy] ww hh]. cbn. split; [| reflexivity].
    now rewrite Z.add_0_r.
  - destruct w as [[cx cy] ww hh].
    cbn [OpenGL_Widget.d_cop OpenGL_Widget.d_width OpenGL_Widget.d_height
         QPoint.x QPoint.y] in *.
    cbn [repeat OpenGL_Widget.run OpenGL_Widget.handle].
    rewrite keyPressEvent_Right. unfold Int.add.
    cbn [OpenGL_Widget.d_cop QPoint.x].
    rewrite checked_representable by lia.
    cbn [bind fst snd OpenGL_Widget.set_cop QPoint.setX OpenGL_Widget.d_cop
         OpenGL_Widget.d_width OpenGL_Widget.d_height QPoint.y].
    destruct (IH (OpenGL_Widget.mk (QPoint.mk (cx + 1) cy) ww hh))
      as (calls & Hrun & Hlen);
      [cbn [OpenGL_Widget.d_cop QPoint.x]; lia
      | cbn [OpenGL_Widget.d_cop QPoint.x]; lia |].
    cbn [OpenGL_Widget.d_cop OpenGL_Widget.d_width OpenGL_Widget.d_height
         QPoint.x QPoint.y] in Hrun.
    unfold OpenGL_Widget.set_cop, QPoint.setX.
    cbn [OpenGL_Widget.d_cop OpenGL_Widget.d_width OpenGL_Widget.d_height
         QPoint.x QPoint.y].
    rewrite Hrun. cbn [bind fst snd].
    exists ([OpenGL_Widget.printf_key Qt.Key_Right; OpenGL_Widget.updateGL]
            ++ calls).
    split.
    + replace (cx + Z.of_nat (S n))%Z with (cx + 1 + Z.of_nat n)%Z by lia.
      reflexivity.
    + cbn [length app]. rewrite Hlen. lia.
Qed.

Lemma keyPressEvent_repeat_right_witness :
  (Int.INT_MIN <= 799)%Z
  /\ (799 + Z.of_nat 3 <= Int.INT_MAX)%Z
  /\ exists calls,
       OpenGL_Widget.run (repeat (OpenGL_Widget.KeyPress Qt.Key_Right) 3)
         (OpenGL_Widget.mk (QPoint.mk 799 0) 800 600)
       = Some (OpenGL_Widget.mk (QPoint.mk (799 + Z.of_nat 3) 0) 800 600, calls)
       /\ length calls = (2 * 3)%nat.
Proof.
  assert (Hlo : (Int.INT_MIN <= 799)%Z) by (vm_compute; congruence).
  assert (Hhi : (799 + Z.of_nat 3 <= Int.INT_MAX)%Z) by (vm_compute; congruence).
  split; [exact Hlo | split; [exact Hhi |]].
  exact (keyPressEvent_repeat_right 3
           (OpenGL_Widget.mk (QPoint.mk 799 0) 800 600) Hlo Hhi).
Defined.

(** *** Painting *)

(** X26.  [paintGL] draws four segments: a horizontal and a vertical one
    through the centre of projection for the left eye, and the same for the
    right eye.  The right vertical line is the mirror image of the left one
    about the middle of the window; the right horizontal line is the mirror
    image of the left one exactly when the width is even (for an odd width
    the int division [d_width / 2] makes it one pixel longer). *)
Theorem paintGL_crosses (w : OpenGL_Widget.t) (calls : list OpenGL_Widget.Call) :
  OpenGL_Widget.paintGL w = Some calls ->
  exists lh lv rh rv,
    OpenGL_Widget.segments (OpenGL_Widget.vertices calls) = [lh; lv; rh; rv]
    /\ lv = ((QPoint.x (OpenGL_Widget.d_cop w), 0%Z),
             (QPoint.x (OpenGL_Widget.d_cop w), OpenGL_Widget.d_height w))
    /\ lh = ((0%Z, QPoint.y (OpenGL_Widget.d_cop w)),
             (Z.quot (OpenGL_Widget.d_width w) 2,
              QPoint.y (OpenGL_Widget.d_cop w)))
    /\ rv = (OpenGL_Widget.mirrored (OpenGL_Widget.d_width w) (fst lv),
             OpenGL_Widget.mirrored (OpenGL_Widget.d_width w) (snd lv))
    /\ (rh = (OpenGL_Widget.mirrored (OpenGL_Widget.d_width w) (snd lh),
              OpenGL_Widget.mirrored (OpenGL_Widget.d_width w) (fst lh))
        <-> Z.even (OpenGL_Widget.d_width w) = true).
Proof.
  unfold OpenGL_Widget.paintGL. intros Hrun.
  destruct (Int.div (OpenGL_Widget.d_width w) 2) as [half |] eqn:Hhalf;
    [| discriminate].
  apply Int_div_Some in Hhalf as [_ ->]. cbn [bind] in Hrun.
  unfold Int.sub in Hrun.
  destruct (Int.checked
              (OpenGL_Widget.d_width w - QPoint.x (OpenGL_Widget.d_cop w)))
    as [rx |] eqn:Hrx; [| discriminate].
  apply checked_Some in Hrx as [-> _]. cbn [bind] in Hrun.
  injection Hrun as <-.
  cbn [OpenGL_Widget.vertices OpenGL_Widget.segments QPoint.x QPoint.y].
  do 4 eexists. split; [reflexivity |].
  split; [reflexivity | split; [reflexivity |]].
  unfold OpenGL_Widget.mirrored. cbn [fst snd]. split.
  - f_equal; f_equal; lia.
  - set (W := OpenGL_Widget.d_width w). split.
    + intros [= E _]. 
      assert (HW : W = (2 * Z.quot W 2)%Z) by lia.
      rewrite HW. apply Z.even_even.
    + intros Hev. apply Z.even_spec in Hev as [k Hk].
      assert (Hq : Z.quot W 2 = k) by (rewrite Hk; quot_lia).
      f_equal; f_equal; lia.
Qed.

Lemma paintGL_crosses_witness :
  exists calls,
    OpenGL_Widget.paintGL (OpenGL_Widget.mk (QPoint.mk 200 300) 801 600)
    = Some calls
    /\ exists lh lv rh rv,
         OpenGL_Widget.segments (OpenGL_Widget.vertices calls)
         = [lh; lv; rh; rv]
         /\ lv = ((200, 0), (200, 600))%Z
         /\ lh = ((0, 300), (Z.quot 801 2, 300))%Z
         /\ rv = (OpenGL_Widget.mirrored 801 (fst lv),
                  OpenGL_Widget.mirrored 801 (snd lv))
         /\ (rh = (OpenGL_Widget.mirrored 801 (snd lh),
                   OpenGL_Widget.mirrored 801 (fst lh))
             <-> Z.even 801 = true).
Proof.
  assert (H : { calls | OpenGL_Widget.paintGL
                          (OpenGL_Widget.mk (QPoint.mk 200 300) 801 600)
                        = Some calls })
    by (eexists; vm_compute; reflexivity).
  destruct H as [calls Hrun]. exists calls.
  split; [exact Hrun |].
  exact (paintGL_crosses (OpenGL_Widget.mk (QPoint.mk 200 300) 801 600)
           calls Hrun).
Defined.

(** *** Event sequences *)

Lemma mouseMoveEvent_value (buttons : Z) (w : OpenGL_Widget.t) :
  OpenGL_Widget.mouseMoveEvent buttons w = Some (w, []).
Proof.
  unfold OpenGL_Widget.mouseMoveEvent.
  destruct (negb _); [reflexivity |]. destruct (negb _); reflexivity.
Qed.

(** Moving the mouse, with whatever buttons held, changes nothing in the
    widget and makes no call, not even a repaint request. *)
Lemma mouseMove_inert (moves : list Z) (w : OpenGL_Widget.t) :
  OpenGL_Widget.run (map OpenGL_Widget.MouseMove moves) w = Some (w, []).
Proof.
  induction moves as [| b rest IH]; [reflexivity |].
  cbn [map OpenGL_Widget.run OpenGL_Widget.handle].
  rewrite mouseMoveEvent_value. cbn [bind fst snd].
  rewrite IH. reflexivity.
Qed.

(** X27.  Only [resizeGL] changes the window size the widget has stored:
    through any sequence of key and mouse events the size stays what it
    was. *)
Theorem size_changes_only_on_resize
    (es : list OpenGL_Widget.Event) (w w' : OpenGL_Widget.t)
    (calls : list OpenGL_Widget.Call) :
  (forall width height, ~ In (OpenGL_Widget.Resize width height) es) ->
  OpenGL_Widget.run es w = Some (w', calls) ->
  OpenGL_Widget.d_width w' = OpenGL_Widget.d_width w
  /\ OpenGL_Widget.d_height w' = OpenGL_Widget.d_height w.
Proof.
  revert w w' calls.
  induction es as [| e rest IH]; intros w w' calls Hno Hrun.
  - simpl in Hrun. injection Hrun as <- _. split; reflexivity.
  - cbn [OpenGL_Widget.run] in Hrun.
    destruct (OpenGL_Widget.handle e w) as [[w1 c1] |] eqn:H1; [| discriminate].
    cbn [bind fst snd] in Hrun.
    destruct (OpenGL_Widget.run rest w1) as [[w2 c2] |] eqn:H2; [| discriminate].
    cbn [bind fst snd] in Hrun. injection Hrun as <- _.
    assert (Hstep : OpenGL_Widget.d_width w1 = OpenGL_Widget.d_width w
                    /\ OpenGL_Widget.d_height w1 = OpenGL_Widget.d_height w).
    { destruct e as [width height | key | pos | buttons]; cbn in H1.
      - exfalso. apply (Hno width height). now left.
      - apply keyPressEvent_cases in H1 as (_ & Hw & Hh & _). now split.
      - apply mousePressEvent_cases in H1 as [_ [[_ ->] | [_ ->]]];
          split; reflexivity.
      - rewrite mouseMoveEvent_value in H1. injection H1 as <- _.
        split; reflexivity. }
    destruct Hstep as [Hw1 Hh1].
    destruct (IH w1 w2 c2) as [Hw2 Hh2].
    + intros width height Hin. apply (Hno width height). now right.
    + exact H2.
    + split; congruence.
Qed.

Lemma size_changes_only_on_resize_witness :
  (forall width height,
      ~ In (OpenGL_Widget.Resize width height)
          [OpenGL_Widget.KeyPress Qt.Key_Left;
           OpenGL_Widget.MousePress (QPoint.mk 100 50);
           OpenGL_Widget.MouseMove 1])
  /\ OpenGL_Widget.run
       [OpenGL_Widget.KeyPress Qt.Key_Left;
        OpenGL_Widget.MousePress (QPoint.mk 100 50);
        OpenGL_Widget.MouseMove 1]
       (OpenGL_Widget.mk (QPoint.mk 200 300) 800 600)
     = Some (OpenGL_Widget.mk (QPoint.mk 100 550) 800 600,
             [OpenGL_Widget.printf_key Qt.Key_Left; OpenGL_Widget.updateGL;
              OpenGL_Widget.updateGL])
  /\ OpenGL_Widget.d_width (OpenGL_Widget.mk (QPoint.mk 100 550) 800 600)
     = OpenGL_Widget.d_width (OpenGL_Widget.mk (QPoint.mk 200 300) 800 600)
  /\ OpenGL_Widget.d_height (OpenGL_Widget.mk (QPoint.mk 100 550) 800 600)
     = OpenGL_Widget.d_height (OpenGL_Widget.mk (QPoint.mk 200 300) 800 600).
Proof.
  assert (Hno : forall width height,
             ~ In (OpenGL_Widget.Resize width height)
                 [OpenGL_Widget.KeyPress Qt.Key_Left;
                  OpenGL_Widget.MousePress (QPoint.mk 100 50);
                  OpenGL_Widget.MouseMove 1]).
  { intros width height [H | [H | [H | []]]]; discriminate. }
  assert (Hrun : OpenGL_Widget.run
                   [OpenGL_Widget.KeyPress Qt.Key_Left;
                    OpenGL_Widget.MousePress (QPoint.mk 100 50);
                    OpenGL_Widget.MouseMove 1]
                   (OpenGL_Widget.mk (QPoint.mk 200 300) 800 600)
                 = Some (OpenGL_Widget.mk (QPoint.mk 100 550) 800 600,
                         [OpenGL_Widget.printf_key Qt.Key_Left;
                          OpenGL_Widget.updateGL; OpenGL_Widget.updateGL]))
    by (vm_compute; reflexivity).
  split; [exact Hno | split; [exact Hrun |]].
  exact (size_changes_only_on_resize _ _ _ _ Hno Hrun).
Defined.
